(** * EdFAST timetable manager: loader, display filter, conflict checking

    Shallow embedding of [edfast-frontend/src/components/TimetableManager.tsx]
    (row normalisation, course extraction, statistics, display filter and the
    guards in front of the conflict and schedule requests), followed by the
    timetable core that the component reaches only through the HTTP client
    (time-range parsing, overlap detection, recommendations). *)

From Stdlib Require Import Ascii String.
From stdpp Require Import base gmap strings list fin_maps sorting pretty.

(** ** JavaScript values used by the component *)

Module Js.

(** A property read [entry.key] yields [undefined] ([None]) or a string.
    The empty string and [undefined] are the falsy values. *)
Definition truthy (v : option string) : bool :=
  match v with
  | Some s => negb (String.eqb s "")
  | None => false
  end.

(** [a || b] *)
Definition or (a b : option string) : option string :=
  if truthy a then a else b.

(** [a || 'literal'] : the result is always a string. *)
Definition orStr (a : option string) (lit : string) : string :=
  match a with
  | Some s => if String.eqb s "" then lit else s
  | None => lit
  end.

(** Every character of [s] is an ASCII character (code below 128). *)
Fixpoint isAscii (s : string) : bool :=
  match s with
  | EmptyString => true
  | String c s' => (N_of_ascii c <? 128)%N && isAscii s'
  end.

(** [String.prototype.toLowerCase] on text within ASCII ([isAscii]), where
    the method changes the letters A to Z and nothing else. Cased letters
    beyond ASCII are not lower-cased here, so a statement that describes the
    lower-cased text assumes [isAscii] of it. *)
Definition lowerChar (c : ascii) : ascii :=
  let n := N_of_ascii c in
  if ((65 <=? n) && (n <=? 90))%N then ascii_of_N (n + 32) else c.

Fixpoint toLowerCase (s : string) : string :=
  match s with
  | EmptyString => EmptyString
  | String c s' => String (lowerChar c) (toLowerCase s')
  end.

(** [String.prototype.includes]: [needle] occurs somewhere in [s]. *)
Fixpoint includes (s needle : string) : bool :=
  String.prefix needle s ||
  match s with
  | EmptyString => false
  | String _ s' => includes s' needle
  end.

(** [new Set(iterable)]: elements in insertion order, a value already
    present is not added again. [size] is the length of the list. *)
Definition setAdd (acc : list string) (x : string) : list string :=
  if decide (x ∈ acc) then acc else acc ++ [x].

Definition setOf (l : list string) : list string :=
  fold_left setAdd l [].

End Js.

(** ** The component [TimetableManager] *)

Module TimetableManager.

(** *** Data of the component *)

(** A row of the API response: an object with text columns and an optional
    numeric [semester]. A missing column reads as [undefined]. *)
Record RawRow := mkRawRow {
  columns : gmap string string;
  row_semester : option Z
}.

Definition get (entry : RawRow) (key : string) : option string :=
  columns entry !! key.

Record TimetableEntry := mkTimetableEntry {
  id : string;
  course : string;
  section : string;
  day : string;
  time : string;
  type : string;
  room : string;
  instructor : option string;
  course_code : option string;
  course_name : option string;
  semester : option Z
}.

Record ConflictInfo := mkConflictInfo {
  ci_day : string;
  course1 : string; section1 : string; time1 : string; room1 : string;
  course2 : string; section2 : string; time2 : string; room2 : string;
  ci_type : string
}.

Record Suggestion := mkSuggestion {
  sg_course : string;
  alternative_section : string;
  alternative_time : string;
  alternative_room : string
}.

Record ScheduleRecommendation := mkScheduleRecommendation {
  conflict_type : string;
  conflicted_courses : list string;
  sr_day : string;
  suggestions : list Suggestion
}.

Record TimetableStats := mkTimetableStats {
  totalClasses : nat;
  uniqueCourses : nat;
  theoryClasses : nat;
  labClasses : nat;
  uniqueRooms : nat;
  daysCovered : nat
}.

Record Filters := mkFilters {
  f_course : string;
  f_day : string;
  f_type : string;
  f_room : string;
  f_department : string
}.

Global Instance TimetableEntry_eq_dec : EqDecision TimetableEntry.
Proof. solve_decision. Defined.

(** *** Row normalisation ([loadTimetableData], [loadTestTimetableData]) *)

(** The object literal pushed for the row [entry] at position [index];
    [prefix] is ["entry"] for a bare array and the file name otherwise.
    The literal has no [instructor] property. *)
Definition normalizeRow (prefix : string) (index : nat) (entry : RawRow)
  : TimetableEntry :=
  {| id := prefix +:+ "_" +:+ pretty index;
     course := Js.orStr (Js.or (Js.or (get entry "Course") (get entry "course"))
                               (get entry "course_name")) "";
     section := Js.orStr (Js.or (get entry "Section") (get entry "section")) "";
     day := Js.orStr (Js.or (get entry "Day") (get entry "day")) "";
     time := Js.orStr (Js.or (get entry "Time") (get entry "time")) "";
     type := Js.orStr (Js.or (get entry "Type") (get entry "type")) "Theory";
     room := Js.orStr (Js.or (Js.or (get entry "Class") (get entry "room"))
                             (get entry "location")) "";
     instructor := None;
     course_code := Js.or (Js.or (get entry "course_code") (get entry "Course"))
                          (get entry "course");
     course_name := Js.or (Js.or (get entry "course_name") (get entry "Course"))
                          (get entry "course");
     semester := row_semester entry |}.

(** [rows.forEach((entry, index) => allEntries.push({...}))] *)
Definition pushRows (allEntries : list TimetableEntry) (prefix : string)
    (rows : list RawRow) : list TimetableEntry :=
  allEntries ++ imap (normalizeRow prefix) rows.

(** The value stored under a file name: an array of rows, or anything else
    (skipped by the [Array.isArray] guard). *)
Inductive FileData :=
  | FArray (rows : list RawRow)
  | FOther.

(** [response.data.data || response.data || {}]: an array of rows, or an
    object from file names to file data, enumerated by [Object.entries]. *)
Inductive Payload :=
  | PArray (rows : list RawRow)
  | PFiles (files : list (string * FileData)).

Definition pushFile (allEntries : list TimetableEntry)
    (kv : string * FileData) : list TimetableEntry :=
  match kv.2 with
  | FArray rows => pushRows allEntries kv.1 rows
  | FOther => allEntries
  end.

Definition processPayload (dataToProcess : Payload) : list TimetableEntry :=
  match dataToProcess with
  | PArray rows => pushRows [] "entry" rows
  | PFiles files => fold_left pushFile files []
  end.

(** *** Selectable courses and statistics *)

(** [[...new Set(allEntries.map(item => item.course))].filter(Boolean)] *)
Definition uniqueCoursesOf (allEntries : list TimetableEntry) : list string :=
  filter (λ c, c ≠ "") (Js.setOf (course <$> allEntries)).

Definition statsOf (allEntries : list TimetableEntry) : TimetableStats :=
  {| totalClasses := length allEntries;
     uniqueCourses := length (uniqueCoursesOf allEntries);
     theoryClasses := length (filter (λ item, type item = "Theory") allEntries);
     labClasses := length (filter (λ item, type item = "Lab") allEntries);
     uniqueRooms := length (Js.setOf (room <$> allEntries));
     daysCovered := length (Js.setOf (day <$> allEntries)) |}.

(** *** Component state *)

Record State := mkState {
  activeTab : string;
  timetableData : list TimetableEntry;
  filteredData : list TimetableEntry;
  stats : option TimetableStats;
  loading : bool;
  error : option string;
  currentTimetableId : option string;
  conflicts : list ConflictInfo;
  recommendations : list ScheduleRecommendation;
  selectedCourses : list string;
  availableCourses : list string;
  showConflictModal : bool;
  filters : Filters
}.

Definition setActiveTab (v : string) (s : State) : State :=
  mkState v (timetableData s) (filteredData s) (stats s) (loading s) (error s)
    (currentTimetableId s) (conflicts s) (recommendations s)
    (selectedCourses s) (availableCourses s) (showConflictModal s) (filters s).

Definition setTimetableData (v : list TimetableEntry) (s : State) : State :=
  mkState (activeTab s) v (filteredData s) (stats s) (loading s) (error s)
    (currentTimetableId s) (conflicts s) (recommendations s)
    (selectedCourses s) (availableCourses s) (showConflictModal s) (filters s).

Definition setFilteredData (v : list TimetableEntry) (s : State) : State :=
  mkState (activeTab s) (timetableData s) v (stats s) (loading s) (error s)
    (currentTimetableId s) (conflicts s) (recommendations s)
    (selectedCourses s) (availableCourses s) (showConflictModal s) (filters s).

Definition setStats (v : option TimetableStats) (s : State) : State :=
  mkState (activeTab s) (timetableData s) (filteredData s) v (loading s)
    (error s) (currentTimetableId s) (conflicts s) (recommendations s)
    (selectedCourses s) (availableCourses s) (showConflictModal s) (filters s).

Definition setLoading (v : bool) (s : State) : State :=
  mkState (activeTab s) (timetableData s) (filteredData s) (stats s) v
    (error s) (currentTimetableId s) (conflicts s) (recommendations s)
    (selectedCourses s) (availableCourses s) (showConflictModal s) (filters s).

Definition setError (v : option string) (s : State) : State :=
  mkState (activeTab s) (timetableData s) (filteredData s) (stats s)
    (loading s) v (currentTimetableId s) (conflicts s) (recommendations s)
    (selectedCourses s) (availableCourses s) (showConflictModal s) (filters s).

Definition setCurrentTimetableId (v : option string) (s : State) : State :=
  mkState (activeTab s) (timetableData s) (filteredData s) (stats s)
    (loading s) (error s) v (conflicts s) (recommendations s)
    (selectedCourses s) (availableCourses s) (showConflictModal s) (filters s).

Definition setConflicts (v : list ConflictInfo) (s : State) : State :=
  mkState (activeTab s) (timetableData s) (filteredData s) (stats s)
    (loading s) (error s) (currentTimetableId s) v (recommendations s)
    (selectedCourses s) (availableCourses s) (showConflictModal s) (filters s).

Definition setRecommendations (v : list ScheduleRecommendation) (s : State)
  : State :=
  mkState (activeTab s) (timetableData s) (filteredData s) (stats s)
    (loading s) (error s) (currentTimetableId s) (conflicts s) v
    (selectedCourses s) (availableCourses s) (showConflictModal s) (filters s).

Definition setSelectedCourses (v : list string) (s : State) : State :=
  mkState (activeTab s) (timetableData s) (filteredData s) (stats s)
    (loading s) (error s) (currentTimetableId s) (conflicts s)
    (recommendations s) v (availableCourses s) (showConflictModal s)
    (filters s).

Definition setAvailableCourses (v : list string) (s : State) : State :=
  mkState (activeTab s) (timetableData s) (filteredData s) (stats s)
    (loading s) (error s) (currentTimetableId s) (conflicts s)
    (recommendations s) (selectedCourses s) v (showConflictModal s)
    (filters s).

Definition setShowConflictModal (v : bool) (s : State) : State :=
  mkState (activeTab s) (timetableData s) (filteredData s) (stats s)
    (loading s) (error s) (currentTimetableId s) (conflicts s)
    (recommendations s) (selectedCourses s) (availableCourses s) v
    (filters s).

Definition setFilters (v : Filters) (s : State) : State :=
  mkState (activeTab s) (timetableData s) (filteredData s) (stats s)
    (loading s) (error s) (currentTimetableId s) (conflicts s)
    (recommendations s) (selectedCourses s) (availableCourses s)
    (showConflictModal s) v.

(** *** Loading a timetable *)

(** What an awaited request evaluates to: a body with [success] true, a body
    with [success] false and an optional [error], or a thrown exception with
    an optional [message]. *)
Inductive Response (A : Type) :=
  | Success (data : A)
  | Failure (err : option string)
  | Thrown (message : option string).
Arguments Success {A} data.
Arguments Failure {A} err.
Arguments Thrown {A} message.

(** The five state updates that follow the construction of [allEntries]. *)
Definition storeEntries (allEntries : list TimetableEntry) (s : State) : State :=
  setStats (Some (statsOf allEntries))
    (setAvailableCourses (uniqueCoursesOf allEntries)
      (setFilteredData allEntries (setTimetableData allEntries s))).

Definition loadTimetableData (response : Response Payload) (s : State) : State :=
  match response with
  | Success dataToProcess => storeEntries (processPayload dataToProcess) s
  | Failure err =>
      setError (Some (Js.orStr err "Failed to load timetable data")) s
  | Thrown message =>
      setError (Some (Js.orStr message "Failed to load timetable data")) s
  end.

Definition loadTestTimetableData (data : Response Payload) (s : State) : State :=
  match data with
  | Success dataToProcess => storeEntries (processPayload dataToProcess) s
  | Failure err =>
      setError (Some (Js.orStr err "Failed to load test timetable data")) s
  | Thrown message =>
      setError (Some (Js.orStr message "Failed to load test timetable data")) s
  end.

Definition mockEntry (i c sec d t ty r cn : string) : TimetableEntry :=
  {| id := i; course := c; section := sec; day := d; time := t; type := ty;
     room := r; instructor := None; course_code := Some c;
     course_name := Some cn; semester := Some 2%Z |}.

Definition mockData : list TimetableEntry :=
  [ mockEntry "1" "CS2001" "A" "Monday" "09:00-10:30" "Theory" "CS-101"
      "Data Structures";
    mockEntry "2" "CS2001" "A" "Wednesday" "09:00-10:30" "Theory" "CS-101"
      "Data Structures";
    mockEntry "3" "CS2001" "A" "Friday" "14:00-15:30" "Lab" "CS-Lab-1"
      "Data Structures Lab" ].

Definition processFileLocally (s : State) : State :=
  setError
    (Some "API unavailable - showing sample data. Please try uploading again later.")
    (setActiveTab "view" (storeEntries mockData s)).

(** *** Display filter *)

Definition truthyStr (s : string) : bool := negb (String.eqb s "").

Definition applyFilters (s : State) : State :=
  let f := filters s in
  let filtered := timetableData s in
  let filtered :=
    if truthyStr (f_course f)
    then filter (λ item, Js.includes (Js.toLowerCase (course item))
                                     (Js.toLowerCase (f_course f)) = true)
                filtered
    else filtered in
  let filtered :=
    if truthyStr (f_day f)
    then filter (λ item, day item = f_day f) filtered else filtered in
  let filtered :=
    if truthyStr (f_type f)
    then filter (λ item, type item = f_type f) filtered else filtered in
  let filtered :=
    if truthyStr (f_room f)
    then filter (λ item, Js.includes (Js.toLowerCase (room item))
                                     (Js.toLowerCase (f_room f)) = true)
                filtered
    else filtered in
  setFilteredData filtered s.

Definition clearedFilters : Filters := mkFilters "" "" "" "" "".

Definition clearFilters (s : State) : State := setFilters clearedFilters s.

(** *** Course selection, conflict check and personal schedule *)

Definition handleCourseSelection (c : string) (checked : bool) (s : State)
  : State :=
  if checked
  then setSelectedCourses (selectedCourses s ++ [c]) s
  else setSelectedCourses (filter (λ c', c' ≠ c) (selectedCourses s)) s.

(** [!currentTimetableId || selectedCourses.length === 0] *)
Definition nothingSelected (s : State) : bool :=
  negb (Js.truthy (currentTimetableId s)) ||
  Nat.eqb (length (selectedCourses s)) 0.

(** Body of a successful conflicts response: both lists may be missing. *)
Record ConflictData := mkConflictData {
  cd_conflicts : option (list ConflictInfo);
  cd_recommendations : option (list ScheduleRecommendation)
}.

(** [response] is what [api.checkTimetableConflicts(currentTimetableId,
    selectedCourses)] evaluates to; it is consulted only past the guard. *)
Definition checkConflicts
    (api : string → list string → Response ConflictData) (s : State) : State :=
  if nothingSelected s
  then setError (Some "Please select courses to check for conflicts") s
  else
    let s1 := setLoading true s in
    let s2 :=
      match api (default "" (currentTimetableId s)) (selectedCourses s) with
      | Success data =>
          setShowConflictModal true
            (setRecommendations (default [] (cd_recommendations data))
              (setConflicts (default [] (cd_conflicts data)) s1))
      | Failure err =>
          setError (Some (Js.orStr err "Failed to check conflicts")) s1
      | Thrown message =>
          setError (Some (Js.orStr message "Failed to check conflicts")) s1
      end in
    setLoading false s2.

(** The literal pushed by [buildPersonalSchedule]: fewer aliases than the
    loader's. *)
Definition scheduleRow (prefix : string) (index : nat) (entry : RawRow)
  : TimetableEntry :=
  {| id := prefix +:+ "_" +:+ pretty index;
     course := Js.orStr (Js.or (get entry "Course") (get entry "course")) "";
     section := Js.orStr (Js.or (get entry "Section") (get entry "section")) "";
     day := Js.orStr (Js.or (get entry "Day") (get entry "day")) "";
     time := Js.orStr (Js.or (get entry "Time") (get entry "time")) "";
     type := Js.orStr (Js.or (get entry "Type") (get entry "type")) "Theory";
     room := Js.orStr (Js.or (get entry "Class") (get entry "room")) "";
     instructor := None;
     course_code := get entry "course_code";
     course_name := get entry "course_name";
     semester := row_semester entry |}.

(** [api] stands for [api.filterTimetable(currentTimetableId, selectedCourses,
    [])]; its [filtered_data] maps file names to arrays of rows. A response
    with [success] false changes nothing but [loading]. *)
Definition buildPersonalSchedule
    (api : string → list string → list string
           → Response (list (string * list RawRow)))
    (s : State) : State :=
  if nothingSelected s
  then setError (Some "Please select courses to build schedule") s
  else
    let s1 := setLoading true s in
    let s2 :=
      match api (default "" (currentTimetableId s)) (selectedCourses s) [] with
      | Success filtered_data =>
          let allEntries :=
            fold_left (λ acc kv, acc ++ imap (scheduleRow kv.1) kv.2)
                      filtered_data [] in
          setActiveTab "view" (setFilteredData allEntries s1)
      | Failure _ => s1
      | Thrown message =>
          setError (Some (Js.orStr message "Failed to build personal schedule")) s1
      end in
    setLoading false s2.

(** *** Rows with missing columns *)

(** No alias of the course column and none of the day column has a
    non-empty value. *)
Definition requiredMissing (entry : RawRow) : Prop :=
  Js.truthy (get entry "Course") = false
  ∧ Js.truthy (get entry "course") = false
  ∧ Js.truthy (get entry "course_name") = false
  ∧ Js.truthy (get entry "Day") = false
  ∧ Js.truthy (get entry "day") = false.

Definition typeMissing (entry : RawRow) : Prop :=
  Js.truthy (get entry "Type") = false ∧ Js.truthy (get entry "type") = false.

Definition roomMissing (entry : RawRow) : Prop :=
  Js.truthy (get entry "Class") = false
  ∧ Js.truthy (get entry "room") = false
  ∧ Js.truthy (get entry "location") = false.

(** A row whose course and day columns are present but empty, with no type,
    room or instructor column. *)
Definition blankRow : RawRow :=
  mkRawRow {[ "Course" := ""; "Day" := ""; "Time" := "09:00-10:30" ]} None.

(** A row with a room and without a type column. *)
Definition untypedRow : RawRow :=
  mkRawRow {[ "Course" := "CS2001"; "Day" := "Monday"; "Class" := "CS-101" ]}
    None.

(** A row that names its course under all three aliases. *)
Definition aliasedRow : RawRow :=
  mkRawRow {[ "Course" := "CS2001"; "course" := "CS2001";
              "course_name" := "CS2001"; "Day" := "Monday" ]} None.

(** Number of rows a file contributes. *)
Definition rowsOfFile (kv : string * FileData) : nat :=
  match kv.2 with
  | FArray rows => length rows
  | FOther => 0
  end.

(** *** Initial state and statements about states *)

(** The [useState] defaults. *)
Definition initialState : State :=
  mkState "upload" [] [] None false None None [] [] [] [] false clearedFilters.

(** A state with a current timetable in which the local fallback has run:
    the sample timetable is loaded, no course is selected and no filter is
    set. *)
Definition sampleState : State :=
  processFileLocally (setCurrentTimetableId (Some "1") initialState).

(** A conflicts endpoint that always answers with an empty success body. *)
Definition noConflictsApi (_ : string) (_ : list string)
  : Response ConflictData :=
  Success (mkConflictData None None).

(** A filter endpoint that always answers with no file. *)
Definition emptyFilterApi (_ : string) (_ _ : list string)
  : Response (list (string * list RawRow)) :=
  Success [].

(** What one file of the response contributes to [allEntries]. *)
Definition entriesOfFile (kv : string * FileData) : list TimetableEntry :=
  match kv.2 with
  | FArray rows => imap (normalizeRow kv.1) rows
  | FOther => []
  end.

(** [array.indexOf(x)], with the length of the array when [x] is absent. *)
Fixpoint indexOf (x : string) (l : list string) : nat :=
  match l with
  | [] => 0
  | y :: l' => if decide (y = x) then 0 else S (indexOf x l')
  end.

(** The first occurrence of [c] in [values] precedes that of [d]. *)
Definition firstOccursBefore (values : list string) (c d : string) : Prop :=
  indexOf c values < indexOf d values.

(** [cs] lists the distinct non-empty values of [values], ordered by the
    position at which each value first occurs. *)
Definition distinctInFirstOccurrenceOrder (cs values : list string) : Prop :=
  NoDup cs
  ∧ (∀ c, c ∈ cs ↔ c ≠ "" ∧ c ∈ values)
  ∧ StronglySorted (firstOccursBefore values) cs.

(** The selectable courses are those of the loaded entries, and the
    statistics count them. *)
Definition coursesSelectable (s : State) : Prop :=
  distinctInFirstOccurrenceOrder (availableCourses s)
                                 (course <$> timetableData s)
  ∧ uniqueCourses <$> stats s = Some (length (availableCourses s)).

End TimetableManager.

(** ** The timetable core behind the API

    The component only posts course lists to [/timetable/{id}/conflicts] and
    [/timetable/{id}/filter]; the parser, the overlap detector and the
    recommendation generator themselves are not part of the front end. They
    are modelled here from their specification. *)

Module Core.

(** Modelled from the spec: the error taxonomy of the core (section 7). *)
Inductive Error :=
  | MalformedTimeRange
  | MissingRequiredField.

(** Modelled from the spec: the canonical entry of the data model, with its
    time range parsed to minutes since midnight; the day is kept as the label
    the loader delivers. *)
Record Entry := mkEntry {
  course_code : string;
  section : string;
  day : string;
  start_time : nat;
  end_time : nat;
  room : string;
  type : string;
  instructor : option string
}.

(** Modelled from the spec: a conflict names the day and the two entries. *)
Record Conflict := mkConflict {
  conflict_day : string;
  entry_a : Entry;
  entry_b : Entry
}.

(** Modelled from the spec: a conflict with the candidate substitute
    sections. *)
Record Recommendation := mkRecommendation {
  conflict : Conflict;
  alternative_sections : list Entry
}.

(** Modelled from the spec: a warning records the index of the skipped row
    and the reason. *)
Record Warning := mkWarning {
  row_index : nat;
  reason : Error
}.

Global Instance Entry_eq_dec : EqDecision Entry.
Proof. solve_decision. Defined.

Global Instance Conflict_eq_dec : EqDecision Conflict.
Proof. solve_decision. Defined.

(** *** Time interval parser *)

(** Modelled from the spec: a decimal digit of the pattern [HH:MM]. *)
Definition digitOf (c : ascii) : option nat :=
  let n := nat_of_ascii c in
  if (48 <=? n) && (n <=? 57) then Some (n - 48) else None.

(** Modelled from the spec: two digits of hours and two of minutes on a
    24-hour clock, as minutes since midnight. *)
Definition parseClock (h1 h2 m1 m2 : ascii) : option nat :=
  a ← digitOf h1; b ← digitOf h2; c ← digitOf m1; d ← digitOf m2;
  let h := 10 * a + b in
  let m := 10 * c + d in
  if (h <? 24) && (m <? 60) then Some (60 * h + m) else None.

(** Modelled from the spec: the parser lives behind the API. A time-range
    string must match [HH:MM-HH:MM] (24h); the result is the pair
    (start_minutes, end_minutes); a pattern mismatch or start >= end fails
    with [MalformedTimeRange]. *)
Definition parseTimeRange (s : string) : Error + (nat * nat) :=
  match s with
  | String h1 (String h2 (String c1 (String m1 (String m2 (String d
      (String h3 (String h4 (String c2 (String m3 (String m4
        EmptyString)))))))))) =>
      if Ascii.eqb c1 ":" && Ascii.eqb d "-" && Ascii.eqb c2 ":"
      then
        match parseClock h1 h2 m1 m2, parseClock h3 h4 m3 m4 with
        | Some a, Some b =>
            if a <? b then inr (a, b) else inl MalformedTimeRange
        | _, _ => inl MalformedTimeRange
        end
      else inl MalformedTimeRange
  | _ => inl MalformedTimeRange
  end.

(** The text [HH:MM] of a clock time, used to state what the parser accepts. *)
Definition digitChar (n : nat) : ascii := ascii_of_nat (48 + n).

Definition twoDigits (n : nat) : string :=
  String (digitChar (n / 10)) (String (digitChar (n mod 10)) EmptyString).

Definition clockText (h m : nat) : string :=
  twoDigits h +:+ ":" +:+ twoDigits m.

Definition rangeText (h1 m1 h2 m2 : nat) : string :=
  clockText h1 m1 +:+ "-" +:+ clockText h2 m2.

(** Modelled from the spec: the caller of the parser. Data flow is
    normalizer, then parser; the policy on a malformed range is to skip the
    row, record a warning with its index and go on with the next row. *)
Definition parseEntry (e : TimetableManager.TimetableEntry) : Error + Entry :=
  match parseTimeRange (TimetableManager.time e) with
  | inr (s, t) =>
      inr {| course_code := TimetableManager.course e;
             section := TimetableManager.section e;
             day := TimetableManager.day e;
             start_time := s;
             end_time := t;
             room := TimetableManager.room e;
             type := TimetableManager.type e;
             instructor := TimetableManager.instructor e |}
  | inl err => inl err
  end.

(** Modelled from the spec: the pass over the rows, from row [index] on. *)
Fixpoint parseFrom (index : nat) (rows : list TimetableManager.TimetableEntry)
  : list Entry * list Warning :=
  match rows with
  | [] => ([], [])
  | r :: rest =>
      let out := parseFrom (S index) rest in
      match parseEntry r with
      | inr e => (e :: out.1, out.2)
      | inl err => (out.1, mkWarning index err :: out.2)
      end
  end.

(** Modelled from the spec: entries and warnings of a whole timetable. *)
Definition parseEntries (rows : list TimetableManager.TimetableEntry)
  : list Entry * list Warning :=
  parseFrom 0 rows.

(** *** Overlap detector *)

(** Modelled from the spec: the interval test of the detector,
    [[start_a, end_a)] and [[start_b, end_b)] share a minute. *)
Definition overlaps (a b : Entry) : bool :=
  (start_time a `max` start_time b) <? (end_time a `min` end_time b).

(** Modelled from the spec: the sort key, start minute with ties broken by
    course code, lexically. *)
Definition key_le (a b : Entry) : Prop :=
  start_time a < start_time b ∨
  (start_time a = start_time b ∧ String.le (course_code a) (course_code b)).

Global Instance key_le_dec : RelDecision key_le.
Proof. intros a b. unfold key_le. apply _. Defined.

(** Modelled from the spec: the inner loop of the sweep. The entries after
    [a] in start order are visited up to the first one that starts at or
    after the end of [a]; a pair is reported when the intervals intersect
    and the course codes differ. *)
Fixpoint scan (a : Entry) (rest : list Entry) : list Conflict :=
  match rest with
  | [] => []
  | b :: rest' =>
      if end_time a <=? start_time b then []
      else
        (if overlaps a b && bool_decide (course_code a ≠ course_code b)
         then [mkConflict (day a) a b] else [])
        ++ scan a rest'
  end.

(** Modelled from the spec: the sweep over one sorted day group. *)
Fixpoint sweep (sorted : list Entry) : list Conflict :=
  match sorted with
  | [] => []
  | a :: rest => scan a rest ++ sweep rest
  end.

(** Modelled from the spec: the entries grouped by day, one group per day
    that occurs. *)
Definition dayGroups (entries : list Entry) : list (list Entry) :=
  (λ d, filter (λ e, day e = d) entries) <$> remove_dups (day <$> entries).

(** Modelled from the spec: restrict to the selected courses, group by day,
    sort each group by start (then course code) and sweep it. *)
Definition findConflicts (entries : list Entry) (selectedCourses : gset string)
  : list Conflict :=
  let chosen := filter (λ e, course_code e ∈ selectedCourses) entries in
  dayGroups chosen ≫= (λ g, sweep (merge_sort key_le g)).

(** *** Recommendation generator *)

(** Modelled from the spec: two entries overlap in day and time. *)
Definition clashes (x y : Entry) : Prop :=
  day x = day y ∧ overlaps x y = true.

Global Instance clashes_dec : RelDecision clashes.
Proof. intros x y. unfold clashes. apply _. Defined.

(** Modelled from the spec: the other currently selected entries an
    alternative for [side] is checked against, the conflicting entry itself
    excluded. *)
Definition othersSelected (side alt : Entry) (allEntries : list Entry)
    (selectedCourses : gset string) : list Entry :=
  filter (λ o, course_code o ∈ selectedCourses ∧ o ≠ side ∧ o ≠ alt)
         allEntries.

(** Modelled from the spec: the alternatives for one side of a conflict, in
    timetable order. *)
Definition alternativesFor (side : Entry) (allEntries : list Entry)
    (selectedCourses : gset string) : list Entry :=
  filter (λ alt, course_code alt = course_code side
                 ∧ section alt ≠ section side
                 ∧ Forall (λ o, ¬ clashes alt o)
                          (othersSelected side alt allEntries selectedCourses))
         allEntries.

(** Modelled from the spec: for each side of the conflict, the entries of the
    same course in another section that clash with no other selected entry;
    the record is produced whether or not the list is empty. *)
Definition recommend (c : Conflict) (allEntries : list Entry)
    (selectedCourses : gset string) : Recommendation :=
  {| conflict := c;
     alternative_sections :=
       alternativesFor (entry_a c) allEntries selectedCourses
       ++ alternativesFor (entry_b c) allEntries selectedCourses |}.

(** *** Statements about the core *)

(** [s] is the text [HH:MM-HH:MM] of two clock times, the first strictly
    before the second; [a] and [b] are their minutes since midnight. *)
Definition wellFormedRange (s : string) (a b : nat) : Prop :=
  ∃ h1 m1 h2 m2,
    h1 < 24 ∧ m1 < 60 ∧ h2 < 24 ∧ m2 < 60
    ∧ s = rangeText h1 m1 h2 m2
    ∧ a = 60 * h1 + m1 ∧ b = 60 * h2 + m2
    ∧ a < b.

Definition malformed (s : string) : Prop := ¬ ∃ a b, wellFormedRange s a b.

(** Order by start minute alone. *)
Definition startOrder : relation Entry :=
  λ a b, start_time a ≤ start_time b.

(** Some minute lies in both half-open intervals. *)
Definition intersects (a b : Entry) : Prop :=
  ∃ t, (start_time a ≤ t < end_time a) ∧ (start_time b ≤ t < end_time b).

Definition conflicting (a b : Entry) : Prop :=
  day a = day b ∧ intersects a b ∧ course_code a ≠ course_code b.

(** [c] is a conflict between [a] and [b], in either orientation. *)
Definition reportsPair (a b : Entry) (c : Conflict) : Prop :=
  (entry_a c = a ∧ entry_b c = b) ∨ (entry_a c = b ∧ entry_b c = a).

Global Instance reportsPair_dec a b c : Decision (reportsPair a b c).
Proof. unfold reportsPair. apply _. Defined.

(** Every entry of the course of [side] is in the section of [side]. *)
Definition onlyOneSection (side : Entry) (allEntries : list Entry) : Prop :=
  ∀ e, e ∈ allEntries → course_code e = course_code side
       → section e = section side.

(** Every other section of the course of [side] clashes with a selected
    entry. *)
Definition noAlternative (side : Entry) (allEntries : list Entry)
    (selectedCourses : gset string) : Prop :=
  ∀ alt, alt ∈ allEntries → course_code alt = course_code side
         → section alt ≠ section side
         → ∃ o, o ∈ othersSelected side alt allEntries selectedCourses
                ∧ clashes alt o.

(** The two entries of the specification's example, and a row whose time
    range lacks the leading zero and the minutes. *)
Definition cs101 : Entry :=
  mkEntry "CS101" "A" "Mon" 540 630 "R1" "Theory" None.

Definition math201 : Entry :=
  mkEntry "MATH201" "B" "Mon" 600 660 "R2" "Theory" None.

Definition badTimeRow : TimetableManager.TimetableEntry :=
  TimetableManager.mkTimetableEntry "entry_1" "MATH201" "B" "Mon" "9-10:30"
    "Theory" "R2" None None None None.

Definition goodTimeRow (i c : string) : TimetableManager.TimetableEntry :=
  TimetableManager.mkTimetableEntry i c "A" "Mon" "09:00-10:30"
    "Theory" "R1" None None None None.

End Core.

(** ** Arrays as heap objects

    In the component the state variables hold references to JavaScript
    arrays; [push] writes through a reference, while the spread syntax and
    [filter] allocate a new array. The operations are replayed here over an
    explicit heap, so that what they write can be stated. *)

Module ArrayStore.

Import TimetableManager.

Inductive Obj :=
  | Rows (rows : list RawRow)
  | Table (entries : list TimetableEntry)
  | Slots (entries : list Core.Entry).

(** A reference is an index into the heap; allocation appends. *)
Abbreviation Heap := (list Obj).

(** Heap-passing computations that may fail on an ill-typed reference. *)
Definition M (A : Type) : Type := Heap → option (A * Heap).

Definition ret {A} (x : A) : M A := λ h, Some (x, h).

Definition bind {A B} (m : M A) (k : A → M B) : M B :=
  λ h, match m h with
       | Some (x, h') => k x h'
       | None => None
       end.

Notation "x ←' m ; k" := (bind m (λ x, k))
  (at level 20, m at level 100, k at level 200, only parsing).
Notation "m ;;' k" := (bind m (λ _, k))
  (at level 100, k at level 200, only parsing, right associativity).

Definition alloc (o : Obj) : M nat := λ h, Some (length h, h ++ [o]).

Definition readRows (r : nat) : M (list RawRow) :=
  λ h, match h !! r with
       | Some (Rows l) => Some (l, h)
       | _ => None
       end.

Definition readTable (r : nat) : M (list TimetableEntry) :=
  λ h, match h !! r with
       | Some (Table l) => Some (l, h)
       | _ => None
       end.

Definition readSlots (r : nat) : M (list Core.Entry) :=
  λ h, match h !! r with
       | Some (Slots l) => Some (l, h)
       | _ => None
       end.

(** [array.push(e)] *)
Definition push (r : nat) (e : TimetableEntry) : M unit :=
  λ h, match h !! r with
       | Some (Table l) => Some ((), <[r := Table (l ++ [e])]> h)
       | _ => None
       end.

(** [[...array]] *)
Definition spread (r : nat) : M nat :=
  l ←' readTable r; alloc (Table l).

(** [array.filter(p)] *)
Definition filterA (P : TimetableEntry → Prop) `{∀ x, Decision (P x)}
    (r : nat) : M nat :=
  l ←' readTable r; alloc (Table (filter P l)).

(** [array.forEach((entry, index) => body)] *)
Fixpoint forEach {A} (body : A → nat → M unit) (l : list A) (index : nat)
  : M unit :=
  match l with
  | [] => ret ()
  | x :: l' => body x index ;;' forEach body l' (S index)
  end.

(** The loader's loop over one array of rows: a fresh [allEntries], one
    [push] per row. *)
Definition normalizeH (prefix : string) (rowsRef : nat) : M nat :=
  rows ←' readRows rowsRef;
  allEntries ←' alloc (Table []);
  forEach (λ entry index, push allEntries (normalizeRow prefix index entry))
          rows 0 ;;'
  ret allEntries.

Definition whenSet (s : string) (step : nat → M nat) (filtered : nat) : M nat :=
  if truthyStr s then step filtered else ret filtered.

(** [applyFilters] with [timetableData] a reference; the result is the
    reference passed to [setFilteredData]. *)
Definition applyFiltersH (f : Filters) (timetableData : nat) : M nat :=
  filtered ←' spread timetableData;
  filtered ←' whenSet (f_course f)
    (filterA (λ item, Js.includes (Js.toLowerCase (course item))
                                  (Js.toLowerCase (f_course f)) = true))
    filtered;
  filtered ←' whenSet (f_day f) (filterA (λ item, day item = f_day f)) filtered;
  filtered ←' whenSet (f_type f) (filterA (λ item, type item = f_type f))
    filtered;
  filtered ←' whenSet (f_room f)
    (filterA (λ item, Js.includes (Js.toLowerCase (room item))
                                  (Js.toLowerCase (f_room f)) = true))
    filtered;
  ret filtered.

(** Modelled from the spec: the detector and the recommender are pure
    functions of the entry collection they are handed. *)
Definition findConflictsH (entriesRef : nat) (selectedCourses : gset string)
  : M (list Core.Conflict) :=
  es ←' readSlots entriesRef; ret (Core.findConflicts es selectedCourses).

(** Modelled from the spec: see [findConflictsH]. *)
Definition recommendH (c : Core.Conflict) (entriesRef : nat)
    (selectedCourses : gset string) : M Core.Recommendation :=
  es ←' readSlots entriesRef; ret (Core.recommend c es selectedCourses).

(** Every object of [h] is still in [h'], at the same reference. *)
Definition preserved (h h' : Heap) : Prop :=
  ∀ r o, h !! r = Some o → h' !! r = Some o.

(** Run on [h], the computation succeeds, leaves every object of [h] as it
    was and returns a reference to a table holding [l]. *)
Definition yields (m : M nat) (h : Heap) (l : list TimetableEntry) : Prop :=
  ∃ q h', m h = Some (q, h') ∧ preserved h h' ∧ h' !! q = Some (Table l).

(** A heap with an array of raw rows, a timetable and a parsed timetable. *)
Definition sampleHeap : Heap :=
  [ Rows [blankRow; aliasedRow];
    Table mockData;
    Slots [Core.cs101; Core.math201] ].

End ArrayStore.

(** ** The remaining handlers of the component *)

Module TimetableHandlers.

Import TimetableManager.

(** [handleFilterChange]: [{...prev, [key]: value}]. The four inputs of the
    view pass the keys course, day, type and room; any other key adds a
    property that no filter reads. *)
Definition handleFilterChange (key value : string) (s : State) : State :=
  let f := filters s in
  setFilters
    (if decide (key = "course")
     then mkFilters value (f_day f) (f_type f) (f_room f) (f_department f)
     else if decide (key = "day")
     then mkFilters (f_course f) value (f_type f) (f_room f) (f_department f)
     else if decide (key = "type")
     then mkFilters (f_course f) (f_day f) value (f_room f) (f_department f)
     else if decide (key = "room")
     then mkFilters (f_course f) (f_day f) (f_type f) value (f_department f)
     else if decide (key = "department")
     then mkFilters (f_course f) (f_day f) (f_type f) (f_room f) value
     else f)
    s.

(** [clearAllData]. The backend call is wrapped in its own [try]; its
    outcome ([Some ok] for a response, [None] for an exception) is only
    logged. *)
Definition clearAllData (backend : option bool) (s : State) : State :=
  setActiveTab "upload"
    (setError None
      (setRecommendations []
        (setConflicts []
          (setStats None
            (setSelectedCourses []
              (setAvailableCourses []
                (setFilteredData []
                  (setTimetableData []
                    (setCurrentTimetableId None s))))))))).

(** [handleFileUpload]. [files] is [None] for a null file list; [upload] is
    what [api.uploadTimetable] evaluates to, with the new timetable id on
    success, and [getTimetable] what [api.getTimetable] answers for an id.
    An exception of the upload sets the error and then runs the local
    fallback. *)
Definition handleFileUpload (files : option (list string))
    (upload : Response string) (getTimetable : string → Response Payload)
    (s : State) : State :=
  match files with
  | None | Some [] => s
  | Some (_ :: _) =>
      let s1 := setError None (setLoading true s) in
      let s2 :=
        match upload with
        | Success timetableId =>
            setActiveTab "view"
              (loadTimetableData (getTimetable timetableId)
                 (setCurrentTimetableId (Some timetableId) s1))
        | Failure err =>
            setError (Some (Js.orStr err "Failed to upload timetable")) s1
        | Thrown message =>
            processFileLocally
              (setError
                 (Some (Js.orStr message
                    "Failed to process timetable file. Please try again."))
                 s1)
        end in
      setLoading false s2
  end.

(** The state updates shared by the two branches of [loadExistingTimetables]
    that drop stale data. *)
Definition dropStaleData (s : State) : State :=
  setStats None
    (setAvailableCourses []
      (setFilteredData []
        (setTimetableData []
          (setCurrentTimetableId None s)))).

(** [loadTestTimetable]. [listTest] is the parsed body of the test listing
    (its timetable ids, most recent first), [getTest] the body of the test
    timetable with a given id. [None] stands for the rethrown exception;
    nothing has been set when it is thrown. *)
Definition loadTestTimetable (listTest : Response (list string))
    (getTest : string → Response Payload) (s : State) : option State :=
  match listTest with
  | Thrown _ => None
  | Success (testTimetable :: _) =>
      Some
        (setError
           (Some "Using test data - please log in for your actual timetables")
           (setActiveTab "view"
              (loadTestTimetableData (getTest testTimetable)
                 (setCurrentTimetableId (Some testTimetable) s))))
  | Success [] | Failure _ => Some s
  end.

(** What [api.getTimetables] evaluates to: a body with its [success] flag and
    timetable ids, or an exception with the HTTP status of its response, if
    it has one. *)
Inductive Listing :=
  | Listed (success : bool) (timetables : list string)
  | ListingThrown (status : option nat).

(** [loadExistingTimetables], run when the component mounts. *)
Definition loadExistingTimetables (listing : Listing)
    (getTimetable : string → Response Payload)
    (listTest : Response (list string)) (getTest : string → Response Payload)
    (s : State) : State :=
  match listing with
  | Listed true (mostRecentTimetable :: _) =>
      setActiveTab "view"
        (loadTimetableData (getTimetable mostRecentTimetable)
           (setCurrentTimetableId (Some mostRecentTimetable) s))
  | Listed _ _ => setActiveTab "upload" (dropStaleData s)
  | ListingThrown status =>
      if decide (status = Some 401)
      then
        match loadTestTimetable listTest getTest s with
        | Some s' => s'
        | None => setError (Some "Please log in to access your timetables") s
        end
      else dropStaleData s
  end.

(** A click on the checkbox of [c]: the box shows
    [selectedCourses.includes(c)] and the event carries the opposite. *)
Definition toggleCourse (c : string) (s : State) : State :=
  handleCourseSelection c (negb (bool_decide (c ∈ selectedCourses s))) s.

(** *** Statements about the handlers *)

(** The entry passes every filter that is set. *)
Definition passes (f : Filters) (item : TimetableEntry) : Prop :=
  (f_course f = ""
   ∨ Js.includes (Js.toLowerCase (course item)) (Js.toLowerCase (f_course f))
     = true)
  ∧ (f_day f = "" ∨ day item = f_day f)
  ∧ (f_type f = "" ∨ type item = f_type f)
  ∧ (f_room f = ""
     ∨ Js.includes (Js.toLowerCase (room item)) (Js.toLowerCase (f_room f))
       = true).

Global Instance passes_dec f item : Decision (passes f item).
Proof. unfold passes. apply _. Defined.

(** [needle] occurs in [s] as a contiguous piece. *)
Definition substring (needle s : string) : Prop :=
  ∃ pre post, s = pre +:+ needle +:+ post.

(** One completed handler, or one run of the effect that re-applies the
    filters; the answers of the API are arbitrary. Course boxes exist for
    the selectable courses, remove buttons for the selected ones, and the
    retry button for a current timetable. *)
Inductive step : State → State → Prop :=
  | step_mount s listing getTimetable listTest getTest :
      step s (loadExistingTimetables listing getTimetable listTest getTest s)
  | step_upload s files upload getTimetable :
      step s (handleFileUpload files upload getTimetable s)
  | step_retry s timetableId response :
      currentTimetableId s = Some timetableId →
      step s (loadTimetableData response s)
  | step_effect s :
      step s (applyFilters s)
  | step_filter s key value :
      step s (handleFilterChange key value s)
  | step_clear_filters s :
      step s (clearFilters s)
  | step_clear_all s backend :
      step s (clearAllData backend s)
  | step_toggle s c :
      c ∈ availableCourses s → step s (toggleCourse c s)
  | step_remove s c :
      c ∈ selectedCourses s → step s (handleCourseSelection c false s)
  | step_check s api :
      step s (checkConflicts api s)
  | step_build s api :
      step s (buildPersonalSchedule api s)
  | step_tab s tab :
      step s (setActiveTab tab s)
  | step_dismiss s :
      step s (setError None s).

(** The selection, the conflict results and the filters of [s] are those of
    [s'] too. *)
Definition keepsSelection (s s' : State) : Prop :=
  selectedCourses s' = selectedCourses s
  ∧ conflicts s' = conflicts s
  ∧ recommendations s' = recommendations s
  ∧ filters s' = filters s
  ∧ showConflictModal s' = showConflictModal s.


(** The text has no underscore (the separator of an entry id). *)
Fixpoint underscoreFree (s : string) : bool :=
  match s with
  | EmptyString => true
  | String c s' => negb (Ascii.eqb c "_") && underscoreFree s'
  end.

(** The type of the entry is neither of the two the statistics count. *)
Definition otherType (item : TimetableEntry) : Prop :=
  type item ≠ "Theory" ∧ type item ≠ "Lab".

(** Rows of a filter response, all files together. *)
Definition scheduleEntries (filtered_data : list (string * list RawRow))
  : list TimetableEntry :=
  filtered_data ≫= (λ kv, imap (scheduleRow kv.1) kv.2).

(** A row that names its course only as course_name. *)
Definition namedRow : RawRow :=
  mkRawRow {[ "course_name" := "Data Structures"; "Day" := "Monday" ]} None.

End TimetableHandlers.

(** ** The API client: tokens and interceptors *)

Module ApiClient.

Import TimetableManager.

(** What the client touches of the browser: [hasWindow] stands for
    [typeof window !== 'undefined'], [href] for [window.location.href]. *)
Record Browser := mkBrowser {
  hasWindow : bool;
  localStorage : gmap string string;
  href : string
}.

Abbreviation Headers := (gmap string string).

Definition setItem (key value : string) (b : Browser) : Browser :=
  mkBrowser (hasWindow b) (<[key := value]> (localStorage b)) (href b).

Definition removeItem (key : string) (b : Browser) : Browser :=
  mkBrowser (hasWindow b) (delete key (localStorage b)) (href b).

Definition setHref (url : string) (b : Browser) : Browser :=
  mkBrowser (hasWindow b) (localStorage b) url.

Definition getToken (b : Browser) : option string :=
  if hasWindow b then localStorage b !! "access_token" else None.

Definition getRefreshToken (b : Browser) : option string :=
  if hasWindow b then localStorage b !! "refresh_token" else None.

(** [setToken(access_token, refresh_token?)] *)
Definition setToken (access_token : string) (refresh_token : option string)
    (b : Browser) : Browser :=
  if hasWindow b
  then
    let b1 := setItem "access_token" access_token b in
    match refresh_token with
    | Some r => if Js.truthy (Some r) then setItem "refresh_token" r b1 else b1
    | None => b1
    end
  else b.

Definition logout (b : Browser) : Browser :=
  if hasWindow b
  then removeItem "user" (removeItem "refresh_token" (removeItem "access_token" b))
  else b.

(** The request interceptor, on the headers of the request. *)
Definition onRequest (headers : Headers) (b : Browser) : Headers :=
  match getToken b with
  | Some token =>
      if Js.truthy (Some token)
      then <["Authorization" := "Bearer " +:+ token]> headers
      else headers
  | None => headers
  end.

(** [refreshToken]. [post] is what the request to [/auth/refresh] with the
    given Authorization header evaluates to: the new access token when the
    body has [success], a body without [success], or an exception. *)
Definition refreshToken (post : string → Response string) (b : Browser)
  : bool * Browser :=
  match getRefreshToken b with
  | Some refreshToken =>
      if Js.truthy (Some refreshToken)
      then
        match post ("Bearer " +:+ refreshToken) with
        | Success access_token => (true, setToken access_token None b)
        | Failure _ | Thrown _ => (false, b)
        end
      else (false, b)
  | None => (false, b)
  end.

(** How the response interceptor leaves a failed request: sent again with
    its own configuration, rejected with the error, or left by the
    ReferenceError that reading [window] raises where there is none. *)
Inductive Settled :=
  | Retried (config : Headers)
  | Rejected
  | Raised.

(** The error branch of the response interceptor. [status] is
    [error.response?.status], [config] is [error.config]. The assignment to
    [window.location.href] after [logout] is not guarded: without a window
    it raises before the location is written and before the error is
    rejected. *)
Definition onResponseError (status : option nat) (config : option Headers)
    (post : string → Response string) (b : Browser) : Settled * Browser :=
  if decide (status = Some 401)
  then
    let r := refreshToken post b in
    match r.1, config with
    | true, Some cfg => (Retried cfg, r.2)
    | _, _ =>
        let b1 := logout r.2 in
        if hasWindow b1 then (Rejected, setHref "/login" b1) else (Raised, b1)
    end
  else (Rejected, b).

(** The body of a login or registration response: the tokens, the user and
    the text [JSON.stringify] gives for the data. *)
Record Credentials := mkCredentials {
  access_token : string;
  refresh_token : option string;
  cred_username : string;
  cred_name : string;
  json : string
}.

(** What a request of the authentication API evaluates to: a body with its
    [success] flag, its data and its [error], or an exception with the
    [error] of its response body, if any, and its message. *)
Inductive AuthResponse :=
  | AuthBody (success : bool) (data : Credentials) (error : option string)
  | AuthRaised (responseError : option string) (message : option string).

(** [login]: what it stores. *)
Definition login (response : AuthResponse) (b : Browser) : Browser :=
  match response with
  | AuthBody true data _ =>
      let b1 := setToken (access_token data) (refresh_token data) b in
      if hasWindow b1 then setItem "user" (json data) b1 else b1
  | _ => b
  end.

(** [register]: what it stores. *)
Definition register (response : AuthResponse) (b : Browser) : Browser :=
  match response with
  | AuthBody true data _ =>
      setToken (access_token data) (refresh_token data) b
  | _ => b
  end.

(** [logoutUser]: the tokens are removed after the request has returned; an
    exception of the request leaves before that. *)
Definition logoutUser (response : AuthResponse) (b : Browser) : Browser :=
  match response with
  | AuthBody _ _ _ => logout b
  | AuthRaised _ _ => b
  end.

(** A browser with a stored session. *)
Definition signedIn : Browser :=
  mkBrowser true
    {[ "access_token" := "t1"; "refresh_token" := "r1"; "user" := "{}";
       "theme" := "dark" ]}
    "/dashboard".

End ApiClient.

(** ** The authentication store *)

Module AuthStore.

Import ApiClient.

Record User := mkUser {
  username : string;
  name : string
}.

Record AuthState := mkAuthState {
  user : option User;
  isAuthenticated : bool;
  isLoading : bool
}.

Definition initialAuth : AuthState := mkAuthState None false true.

Definition userOf (data : Credentials) : User :=
  mkUser (cred_username data) (cred_name data).

(** The message of the error thrown by the [catch] of [login] and
    [register]: [error.response?.data?.error || error.message || fallback]. *)
Definition rethrown (responseError message : option string)
    (fallback : string) : string :=
  Js.orStr (Js.or responseError message) fallback.

(** [login] and [register] of the store, after the API call: the new state,
    or the message of the error thrown. An unsuccessful body is thrown inside
    the [try] with [response.error || fallback] and caught by the same
    [catch]. *)
Definition signIn (fallback : string) (response : AuthResponse)
    (st : AuthState) : string + AuthState :=
  match response with
  | AuthBody true data _ =>
      inr (mkAuthState (Some (userOf data)) true (isLoading st))
  | AuthBody false _ err =>
      inl (rethrown None (Some (Js.orStr err fallback)) fallback)
  | AuthRaised responseError message =>
      inl (rethrown responseError message fallback)
  end.

Definition login (response : AuthResponse) (st : AuthState)
  : string + AuthState :=
  signIn "Login failed" response st.

Definition register (response : AuthResponse) (st : AuthState)
  : string + AuthState :=
  signIn "Registration failed" response st.

(** [logout] of the store with the browser it acts on: the API call, whose
    exception is only logged, then the store and the redirect. *)
Definition logout (response : AuthResponse) (b : Browser) (st : AuthState)
  : Browser * AuthState :=
  let b1 := logoutUser response b in
  (if hasWindow b1 then setHref "/login" b1 else b1,
   mkAuthState None false (isLoading st)).

(** [checkAuth] *)
Definition checkAuth (response : AuthResponse) (st : AuthState) : AuthState :=
  match response with
  | AuthBody true data _ => mkAuthState (Some (userOf data)) true false
  | _ => mkAuthState None false false
  end.

(** One completed action of the store; a failed [login] or [register]
    throws and sets nothing. *)
Inductive authStep : AuthState → AuthState → Prop :=
  | auth_login st st' response :
      login response st = inr st' → authStep st st'
  | auth_register st st' response :
      register response st = inr st' → authStep st st'
  | auth_logout st response b :
      authStep st (logout response b st).2
  | auth_check st response :
      authStep st (checkAuth response st).

(** The flag says whether a user is held. *)
Definition coherent (st : AuthState) : Prop :=
  isAuthenticated st = true ↔ is_Some (user st).

Definition someCredentials : Credentials :=
  mkCredentials "t2" (Some "r2") "ada" "Ada" "{}".

End AuthStore.

(** * Properties *)

Import TimetableManager.

(** ** JavaScript helpers *)

Section js_facts.

Implicit Types (a b : option string) (s lit : string).

Lemma or_falsy_l a b : Js.truthy a = false → Js.or a b = b.
Proof. unfold Js.or. by intros ->. Qed.

Lemma or_falsy a b :
  Js.truthy a = false → Js.truthy b = false → Js.truthy (Js.or a b) = false.
Proof. intros Ha Hb. by rewrite or_falsy_l. Qed.


Lemma orStr_falsy a lit : Js.truthy a = false → Js.orStr a lit = lit.
Proof.
  destruct a as [s|]; [|done]. simpl.
  destruct (String.eqb s ""); [done|discriminate].
Qed.


End js_facts.

(** ** The loader keeps every row *)

Lemma length_pushRows acc prefix rows :
  length (pushRows acc prefix rows) = length acc + length rows.
Proof. unfold pushRows. by rewrite length_app, length_imap. Qed.

Lemma fold_pushFile files acc :
  fold_left pushFile files acc = acc ++ (files ≫= entriesOfFile).
Proof.
  revert acc. induction files as [|kv files IH]; intros acc; simpl.
  - by rewrite app_nil_r.
  - rewrite IH. unfold pushFile, entriesOfFile, pushRows.
    destruct (kv.2); simpl; by rewrite <-?app_assoc.
Qed.

Lemma processPayload_array rows :
  processPayload (PArray rows) = imap (normalizeRow "entry") rows.
Proof. reflexivity. Qed.

Lemma processPayload_files files :
  processPayload (PFiles files) = files ≫= entriesOfFile.
Proof. simpl. by rewrite fold_pushFile. Qed.

Lemma normalizeRow_required_missing prefix index entry :
  requiredMissing entry →
  course (normalizeRow prefix index entry) = ""
  ∧ day (normalizeRow prefix index entry) = "".
Proof.
  intros (HC & Hc & Hn & HD & Hd). simpl. split.
  - apply orStr_falsy. by repeat apply or_falsy.
  - apply orStr_falsy. by apply or_falsy.
Qed.

Lemma length_entriesOfFile kv : length (entriesOfFile kv) = rowsOfFile kv.
Proof.
  unfold entriesOfFile, rowsOfFile. destruct (kv.2); [|done].
  by rewrite length_imap.
Qed.

Lemma length_processPayload_files files :
  length (processPayload (PFiles files)) = sum_list_with rowsOfFile files.
Proof.
  rewrite processPayload_files.
  induction files as [|kv files IH]; [done|].
  rewrite bind_cons, length_app, length_entriesOfFile, IH. done.
Qed.

Lemma lookup_processPayload_files files j name rows i entry :
  files !! j = Some (name, FArray rows) →
  rows !! i = Some entry →
  processPayload (PFiles files) !! (sum_list_with rowsOfFile (take j files) + i)
  = Some (normalizeRow name i entry).
Proof.
  rewrite processPayload_files. revert j.
  induction files as [|kv files IH]; intros j Hfile Hrow; [done|].
  rewrite bind_cons. destruct j as [|j]; simpl in Hfile.
  - injection Hfile as ->. cbn [take sum_list_with]. rewrite Nat.add_0_l.
    unfold entriesOfFile. cbn [snd fst].
    rewrite lookup_app_l
      by (rewrite length_imap; by apply lookup_lt_is_Some_1).
    by rewrite list_lookup_imap, Hrow.
  - cbn [take sum_list_with].
    rewrite lookup_app_r by (rewrite length_entriesOfFile; lia).
    rewrite length_entriesOfFile.
    replace (rowsOfFile kv + sum_list_with rowsOfFile (take j files) + i
             - rowsOfFile kv)
      with (sum_list_with rowsOfFile (take j files) + i) by lia.
    by apply IH.
Qed.

(** C5, as the loader has it: every row of the response yields exactly one
    entry, at the row's own position, and nothing is skipped or reported:
    the row at position [i] of a bare array yields the entry at position
    [i]; the row at position [i] of a file yields the entry that follows, at
    distance [i], the entries of all rows of the files before it; and in
    both shapes there are as many entries as rows. A row whose course and
    day columns are missing or empty is kept as well: the entry at its
    position carries the empty string in both fields. *)
Theorem loader_keeps_every_row (rows : list RawRow) (i : nat) (entry : RawRow)
    (files : list (string * FileData)) :
  rows !! i = Some entry →
  length (processPayload (PArray rows)) = length rows
  ∧ processPayload (PArray rows) !! i = Some (normalizeRow "entry" i entry)
  ∧ length (processPayload (PFiles files)) = sum_list_with rowsOfFile files
  ∧ (∀ j name,
       files !! j = Some (name, FArray rows) →
       processPayload (PFiles files)
         !! (sum_list_with rowsOfFile (take j files) + i)
       = Some (normalizeRow name i entry))
  ∧ (requiredMissing entry →
     ∀ prefix,
       course (normalizeRow prefix i entry) = ""
       ∧ day (normalizeRow prefix i entry) = "").
Proof.
  intros Hrow. split; [|split; [|split; [|split]]].
  - by rewrite processPayload_array, length_imap.
  - by rewrite processPayload_array, list_lookup_imap, Hrow.
  - apply length_processPayload_files.
  - intros j name Hfile.
    by apply (lookup_processPayload_files files j name rows i entry).
  - intros Hmiss prefix. by apply normalizeRow_required_missing.
Qed.

Lemma loader_keeps_every_row_witness :
  [aliasedRow; blankRow] !! 1 = Some blankRow
  ∧ requiredMissing blankRow
  ∧ length (processPayload (PArray [aliasedRow; blankRow])) = 2
  ∧ processPayload
      (PFiles [("a.xlsx", FArray [untypedRow]); ("notes", FOther);
               ("b.xlsx", FArray [aliasedRow; blankRow])]) !! 2
    = Some (normalizeRow "b.xlsx" 1 blankRow)
  ∧ course (normalizeRow "b.xlsx" 1 blankRow) = ""
  ∧ day (normalizeRow "b.xlsx" 1 blankRow) = "".
Proof.
  pose proof (loader_keeps_every_row [aliasedRow; blankRow] 1 blankRow
                [("a.xlsx", FArray [untypedRow]); ("notes", FOther);
                 ("b.xlsx", FArray [aliasedRow; blankRow])] eq_refl)
    as (Hlen & _ & _ & Hfile & Hreq).
  assert (requiredMissing blankRow) as Hmiss by (by repeat split).
  split; [reflexivity|]. split; [exact Hmiss|]. split; [exact Hlen|].
  split; [exact (Hfile 2 "b.xlsx" eq_refl)|].
  exact (Hreq Hmiss "b.xlsx").
Defined.

(** C5, the claim as written fails: a row with empty course and day is not
    skipped, the loader produces an entry for it. *)
Lemma blank_row_is_not_skipped :
  requiredMissing blankRow
  ∧ processPayload (PArray [blankRow])
    = [ {| id := "entry_0"; course := ""; section := ""; day := "";
           time := "09:00-10:30"; type := "Theory"; room := "";
           instructor := None; course_code := None;
           course_name := None; semester := None |} ].
Proof. split; [by repeat split|reflexivity]. Qed.



(** C7, as the loader has it: every row without a non-empty "Type" or "type"
    yields an entry of type "Theory", whatever its other columns hold; every
    row without a non-empty "Class", "room" or "location" yields an entry
    whose room is the empty string, whatever its other columns hold; the
    loader never sets [instructor], which stays undefined for every row; and
    every row is kept. *)
Theorem missing_type_defaults_to_Theory (prefix : string) (index : nat)
    (entry : RawRow) :
  (typeMissing entry → type (normalizeRow prefix index entry) = "Theory")
  ∧ (roomMissing entry → room (normalizeRow prefix index entry) = "")
  ∧ instructor (normalizeRow prefix index entry) = None
  ∧ length (pushRows [] prefix [entry]) = 1.
Proof.
  split; [|split; [|split]]; [| |done..].
  - intros [HT Ht]. simpl. apply orStr_falsy. by apply or_falsy.
  - intros (HC & Hr & Hl). simpl. apply orStr_falsy. by repeat apply or_falsy.
Qed.

Lemma missing_type_defaults_to_Theory_witness :
  typeMissing untypedRow
  ∧ room (normalizeRow "entry" 0 untypedRow) = "CS-101"
  ∧ type (normalizeRow "entry" 0 untypedRow) = "Theory"
  ∧ roomMissing blankRow
  ∧ room (normalizeRow "entry" 0 blankRow) = ""
  ∧ instructor (normalizeRow "entry" 0 untypedRow) = None.
Proof.
  assert (typeMissing untypedRow) as HT by (by repeat split).
  assert (roomMissing blankRow) as HR by (by repeat split).
  pose proof (missing_type_defaults_to_Theory "entry" 0 untypedRow)
    as (Htype & _ & Hinstr & _).
  pose proof (missing_type_defaults_to_Theory "entry" 0 blankRow)
    as (_ & Hroom & _).
  split; [exact HT|]. split; [reflexivity|]. split; [exact (Htype HT)|].
  split; [exact HR|]. split; [exact (Hroom HR)|exact Hinstr].
Defined.

(** C7, the claim as written fails: the instructor of a row without one is
    not normalised to the empty string, it is left undefined. *)
Lemma missing_instructor_is_not_empty_string :
  get blankRow "instructor" = None
  ∧ instructor (normalizeRow "entry" 0 blankRow) ≠ Some "".
Proof. split; [reflexivity|]. simpl. discriminate. Qed.

(** ** Selectable courses *)

Section set_facts.

Implicit Types (l acc : list string) (x y : string).

Lemma setOf_acc l acc :
  fold_left Js.setAdd l acc = acc ++ filter (λ y, y ∉ acc) (Js.setOf l).
Proof.
  unfold Js.setOf. revert acc.
  induction l as [|x l IH]; intros acc; simpl.
  { by rewrite app_nil_r. }
  rewrite (IH (Js.setAdd [] x)), (IH (Js.setAdd acc x)).
  change (Js.setAdd [] x) with [x].
  simpl. unfold Js.setAdd. destruct (decide (x ∈ acc)) as [Hin|Hnin].
  - rewrite filter_cons_False by (intros ?; done).
    rewrite list_filter_filter. f_equal. apply list_filter_iff.
    intros y. split; [|by intros [? _]]. intros Hy. split; [done|].
    by intros ->%list_elem_of_singleton.
  - rewrite filter_cons_True by done.
    rewrite list_filter_filter, <-app_assoc. simpl. do 2 f_equal.
    apply list_filter_iff. intros y.
    rewrite elem_of_app, list_elem_of_singleton. tauto.
Qed.

Lemma setOf_cons x l :
  Js.setOf (x :: l) = x :: filter (λ y, y ≠ x) (Js.setOf l).
Proof.
  unfold Js.setOf at 1. simpl. rewrite setOf_acc.
  change (Js.setAdd [] x) with [x]. simpl. f_equal.
  apply list_filter_iff. intros y. by rewrite list_elem_of_singleton.
Qed.

Lemma elem_of_setOf x l : x ∈ Js.setOf l ↔ x ∈ l.
Proof.
  induction l as [|y l IH]; [done|].
  rewrite setOf_cons, !elem_of_cons, list_elem_of_filter, IH.
  destruct (decide (x = y)); tauto.
Qed.

Lemma NoDup_setOf l : NoDup (Js.setOf l).
Proof.
  induction l as [|y l IH]; [constructor|].
  rewrite setOf_cons. constructor.
  - rewrite list_elem_of_filter. by intros [? _].
  - by apply NoDup_filter.
Qed.

Lemma StronglySorted_weaken {A} (R R' : relation A) (l : list A) :
  (∀ c d, c ∈ l → d ∈ l → R c d → R' c d) →
  StronglySorted R l → StronglySorted R' l.
Proof.
  intros Hw Hs. induction Hs as [|c l Hs IH Hall]; constructor.
  - apply IH. intros. apply Hw; set_solver.
  - rewrite Forall_forall in *. intros d Hd. apply Hw; set_solver.
Qed.

Lemma indexOf_cons_ne x y l : y ≠ x → indexOf x (y :: l) = S (indexOf x l).
Proof. intros Hne. simpl. by rewrite decide_False. Qed.

Lemma setOf_sorted l (P : string → Prop) `{∀ x, Decision (P x)} :
  StronglySorted (firstOccursBefore l) (filter P (Js.setOf l)).
Proof.
  revert P H. induction l as [|x l IH]; intros P HP; [constructor|].
  rewrite setOf_cons.
  assert (StronglySorted (firstOccursBefore (x :: l))
            (filter P (filter (λ y, y ≠ x) (Js.setOf l)))) as Htail.
  { rewrite list_filter_filter.
    eapply StronglySorted_weaken; [|apply IH].
    intros c d [[_ Hc] _]%list_elem_of_filter [[_ Hd] _]%list_elem_of_filter.
    unfold firstOccursBefore.
    rewrite !indexOf_cons_ne by done. lia. }
  destruct (decide (P x)) as [Hx|Hx].
  - rewrite filter_cons_True by done. constructor; [done|].
    apply Forall_forall. intros d [_ [Hd _]%list_elem_of_filter]%list_elem_of_filter.
    unfold firstOccursBefore. rewrite (indexOf_cons_ne d) by done.
    simpl. rewrite decide_True by done. lia.
  - by rewrite filter_cons_False.
Qed.

Lemma uniqueCoursesOf_spec allEntries :
  distinctInFirstOccurrenceOrder (uniqueCoursesOf allEntries)
                                 (course <$> allEntries).
Proof.
  unfold uniqueCoursesOf. split; [|split].
  - apply NoDup_filter, NoDup_setOf.
  - intros c. by rewrite list_elem_of_filter, elem_of_setOf.
  - apply setOf_sorted.
Qed.

End set_facts.

Lemma storeEntries_courses allEntries s :
  timetableData (storeEntries allEntries s) = allEntries
  ∧ filteredData (storeEntries allEntries s) = allEntries
  ∧ coursesSelectable (storeEntries allEntries s).
Proof.
  split; [done|]. split; [done|]. split; [|done].
  apply uniqueCoursesOf_spec.
Qed.

(** C10: after each of the three loads (the API response, the test
    timetable, the local sample data) the selectable courses are the distinct
    non-empty course values of the loaded entries, ordered by first
    occurrence; the empty string is never selectable; and the unique-course
    count of the statistics is the length of that list. *)
Theorem loaded_courses_are_selectable (dataToProcess : Payload) (s : State) :
  coursesSelectable (loadTimetableData (Success dataToProcess) s)
  ∧ coursesSelectable (loadTestTimetableData (Success dataToProcess) s)
  ∧ coursesSelectable (processFileLocally s)
  ∧ ("" ∉ availableCourses (loadTimetableData (Success dataToProcess) s))
  ∧ timetableData (loadTimetableData (Success dataToProcess) s)
    = processPayload dataToProcess.
Proof.
  split; [apply storeEntries_courses|].
  split; [apply storeEntries_courses|].
  split; [split; [apply uniqueCoursesOf_spec|done]|].
  split; [|done].
  intros Hin. change ("" ∈ uniqueCoursesOf (processPayload dataToProcess)) in Hin.
  by apply uniqueCoursesOf_spec in Hin as [Hne _].
Qed.

(** ** Empty filters and empty selection *)






(** ** No operation writes to the array it is given *)

Section heap_facts.

Import ArrayStore.

Implicit Types (h : Heap) (r q : nat) (o : Obj).

Lemma preserved_refl h : preserved h h.
Proof. by intros r o. Qed.

Lemma preserved_trans h1 h2 h3 :
  preserved h1 h2 → preserved h2 h3 → preserved h1 h3.
Proof. intros H12 H23 r o Hr. by apply H23, H12. Qed.

Lemma preserved_alloc h o : preserved h (h ++ [o]).
Proof. intros r o' Hr. by apply lookup_app_l_Some. Qed.

Lemma lookup_alloc h o : (h ++ [o]) !! length h = Some o.
Proof. by rewrite list_lookup_middle. Qed.

(** Writing to the array at [q] leaves the objects below [q] alone. *)
Lemma forEach_push (f : nat → RawRow → TimetableEntry) rows :
  ∀ index h q l,
    h !! q = Some (Table l) →
    ∃ h', forEach (λ entry i, push q (f i entry)) rows index h = Some ((), h')
          ∧ length h' = length h
          ∧ (∀ r, r ≠ q → h' !! r = h !! r)
          ∧ h' !! q = Some (Table (l ++ imap (λ i, f (index + i)) rows)).
Proof.
  induction rows as [|entry rows IH]; intros index h q l Hq; simpl.
  { exists h. by rewrite app_nil_r. }
  unfold bind, push at 1. rewrite Hq.
  assert (q < length h) as Hlt by (by eapply lookup_lt_Some).
  destruct (IH (S index) (<[q := Table (l ++ [f index entry])]> h) q
              (l ++ [f index entry])) as (h' & Hrun & Hlen & Hother & Hres).
  { by rewrite list_lookup_insert_eq. }
  exists h'. split; [done|]. split; [by rewrite Hlen, length_insert|].
  split.
  - intros r Hr. rewrite Hother by done. by rewrite list_lookup_insert_ne.
  - rewrite Hres, <-app_assoc. simpl. do 3 f_equal.
    rewrite Nat.add_0_r. f_equal.
    apply imap_ext. intros i x _. simpl. f_equal. lia.
Qed.

Lemma normalizeH_yields h prefix rowsRef rows :
  h !! rowsRef = Some (Rows rows) →
  yields (normalizeH prefix rowsRef) h (imap (normalizeRow prefix) rows).
Proof.
  intros Hrows. unfold yields, normalizeH, bind, readRows, alloc, ret.
  rewrite Hrows.
  destruct (forEach_push (normalizeRow prefix) rows 0 (h ++ [Table []])
              (length h) []) as (h' & Hrun & Hlen & Hother & Hres).
  { apply lookup_alloc. }
  rewrite Hrun. exists (length h), h'. split; [done|]. split; [|done].
  intros r o Hr. rewrite Hother.
  - by apply lookup_app_l_Some.
  - apply lookup_lt_Some in Hr. lia.
Qed.

Lemma spread_yields h r l :
  h !! r = Some (Table l) → yields (spread r) h l.
Proof.
  intros Hr. unfold yields, spread, bind, readTable, alloc. rewrite Hr.
  exists (length h), (h ++ [Table l]).
  split; [done|]. split; [apply preserved_alloc|apply lookup_alloc].
Qed.

Lemma filterA_yields h r l (P : TimetableEntry → Prop) `{∀ x, Decision (P x)} :
  h !! r = Some (Table l) → yields (filterA P r) h (filter P l).
Proof.
  intros Hr. unfold yields, filterA, bind, readTable, alloc. rewrite Hr.
  exists (length h), (h ++ [Table (filter P l)]).
  split; [done|]. split; [apply preserved_alloc|apply lookup_alloc].
Qed.

Lemma whenSet_yields h r l s step (g : list TimetableEntry → list TimetableEntry) :
  (∀ h r l, h !! r = Some (Table l) → yields (step r) h (g l)) →
  h !! r = Some (Table l) →
  yields (whenSet s step r) h (if truthyStr s then g l else l).
Proof.
  intros Hstep Hr. unfold whenSet. destruct (truthyStr s); [by apply Hstep|].
  exists r, h. split; [done|]. split; [apply preserved_refl|done].
Qed.

Lemma yields_bind (m : M nat) (k : nat → M nat) h l l' :
  yields m h l →
  (∀ q h', h' !! q = Some (Table l) → yields (k q) h' l') →
  yields (bind m k) h l'.
Proof.
  intros (q & h1 & Hm & Hp1 & Hq) Hk.
  destruct (Hk q h1 Hq) as (q' & h2 & Hk' & Hp2 & Hq').
  exists q', h2. unfold bind. rewrite Hm. split; [done|].
  split; [by eapply preserved_trans|done].
Qed.

Lemma applyFiltersH_yields h tableRef s :
  h !! tableRef = Some (Table (timetableData s)) →
  yields (applyFiltersH (filters s) tableRef) h (filteredData (applyFilters s)).
Proof.
  intros Ht. unfold applyFiltersH, applyFilters. simpl.
  eapply yields_bind; [by apply spread_yields|]. intros q1 h1 H1.
  eapply yields_bind.
  { eapply whenSet_yields; [|done]. intros. by apply filterA_yields. }
  intros q2 h2 H2. eapply yields_bind.
  { eapply whenSet_yields; [|done]. intros. by apply filterA_yields. }
  intros q3 h3 H3. eapply yields_bind.
  { eapply whenSet_yields; [|done]. intros. by apply filterA_yields. }
  intros q4 h4 H4. eapply yields_bind.
  { eapply whenSet_yields; [|done]. intros. by apply filterA_yields. }
  intros q5 h5 H5. exists q5, h5.
  split; [done|]. split; [apply preserved_refl|done].
Qed.

End heap_facts.

(** C9: let [h] hold an array of raw rows, a timetable and a parsed
    timetable, and let [h0] be any later heap in which these objects are
    still what they were (so [h] itself, or the heap after any number of the
    operations below). Run on [h0], the loader's loop and the display filter
    succeed, write to no object of [h0] (their input included) and return a
    fresh array with the same contents every time; the detector and the
    recommender return their result and the heap they were given. *)
Theorem operations_leave_input_unchanged
    (h h0 : ArrayStore.Heap) (rowsRef tableRef slotsRef : nat)
    (rows : list RawRow) (slots : list Core.Entry) (s : State)
    (prefix : string) (sel : gset string) (c : Core.Conflict) :
  h !! rowsRef = Some (ArrayStore.Rows rows) →
  h !! tableRef = Some (ArrayStore.Table (timetableData s)) →
  h !! slotsRef = Some (ArrayStore.Slots slots) →
  ArrayStore.preserved h h0 →
  ArrayStore.yields (ArrayStore.normalizeH prefix rowsRef) h0
    (imap (normalizeRow prefix) rows)
  ∧ ArrayStore.yields (ArrayStore.applyFiltersH (filters s) tableRef) h0
      (filteredData (applyFilters s))
  ∧ timetableData (applyFilters s) = timetableData s
  ∧ ArrayStore.findConflictsH slotsRef sel h0
    = Some (Core.findConflicts slots sel, h0)
  ∧ ArrayStore.recommendH c slotsRef sel h0
    = Some (Core.recommend c slots sel, h0).
Proof.
  intros Hrows Htable Hslots Hkeep.
  apply Hkeep in Hrows, Htable, Hslots.
  split; [by apply normalizeH_yields|].
  split; [by apply applyFiltersH_yields|].
  split; [done|].
  unfold ArrayStore.findConflictsH, ArrayStore.recommendH, ArrayStore.bind,
    ArrayStore.readSlots.
  by rewrite Hslots.
Qed.

Lemma operations_leave_input_unchanged_witness :
  ArrayStore.sampleHeap !! 0 = Some (ArrayStore.Rows [blankRow; aliasedRow])
  ∧ ArrayStore.sampleHeap !! 1
    = Some (ArrayStore.Table (timetableData sampleState))
  ∧ ArrayStore.yields (ArrayStore.normalizeH "entry" 0) ArrayStore.sampleHeap
      (imap (normalizeRow "entry") [blankRow; aliasedRow])
  ∧ ArrayStore.yields (ArrayStore.applyFiltersH (filters sampleState) 1)
      ArrayStore.sampleHeap (filteredData (applyFilters sampleState)).
Proof.
  pose proof (operations_leave_input_unchanged
                ArrayStore.sampleHeap ArrayStore.sampleHeap 0 1 2
                [blankRow; aliasedRow] _ sampleState "entry" ∅
                (Core.mkConflict "Mon" Core.cs101 Core.math201)
                eq_refl eq_refl eq_refl (preserved_refl _))
    as (Hn & Hf & _).
  split; [reflexivity|]. split; [reflexivity|]. split; [exact Hn|exact Hf].
Defined.

(** ** Time interval parser *)

Section parser_facts.

Import Core.

Lemma digitOf_digitChar d : d < 10 → digitOf (digitChar d) = Some d.
Proof.
  intros Hd. do 10 (destruct d as [|d]; [reflexivity|]). lia.
Qed.

Lemma digitOf_Some c d : digitOf c = Some d → c = digitChar d ∧ d < 10.
Proof.
  unfold digitOf, digitChar.
  destruct (48 <=? nat_of_ascii c) eqn:Hlo; [|done].
  destruct (nat_of_ascii c <=? 57) eqn:Hhi; [|done].
  cbn [andb]. intros [= <-].
  apply Nat.leb_le in Hlo, Hhi. split; [|lia].
  replace (48 + (nat_of_ascii c - 48)) with (nat_of_ascii c) by lia.
  by rewrite ascii_nat_embedding.
Qed.

Lemma parseClock_text h m :
  h < 24 → m < 60 →
  parseClock (digitChar (h / 10)) (digitChar (h mod 10))
             (digitChar (m / 10)) (digitChar (m mod 10)) = Some (60 * h + m).
Proof.
  intros Hh Hm. unfold parseClock.
  assert (h / 10 < 10) by (apply Nat.Div0.div_lt_upper_bound; lia).
  assert (m / 10 < 10) by (apply Nat.Div0.div_lt_upper_bound; lia).
  assert (h mod 10 < 10) by (apply Nat.mod_upper_bound; lia).
  assert (m mod 10 < 10) by (apply Nat.mod_upper_bound; lia).
  rewrite !digitOf_digitChar by done. cbn [mbind option_bind].
  rewrite <-!(Nat.div_mod_eq _ 10).
  destruct (Nat.ltb_spec h 24); [|lia].
  destruct (Nat.ltb_spec m 60); [|lia]. done.
Qed.

Lemma parseClock_Some c1 c2 c3 c4 a :
  parseClock c1 c2 c3 c4 = Some a →
  ∃ h m, h < 24 ∧ m < 60 ∧ a = 60 * h + m
         ∧ c1 = digitChar (h / 10) ∧ c2 = digitChar (h mod 10)
         ∧ c3 = digitChar (m / 10) ∧ c4 = digitChar (m mod 10).
Proof.
  unfold parseClock.
  destruct (digitOf c1) as [d1|] eqn:H1; [|done].
  destruct (digitOf c2) as [d2|] eqn:H2; [|done].
  destruct (digitOf c3) as [d3|] eqn:H3; [|done].
  destruct (digitOf c4) as [d4|] eqn:H4; [|done]. cbn [mbind option_bind].
  apply digitOf_Some in H1 as [-> ?], H2 as [-> ?], H3 as [-> ?], H4 as [-> ?].
  destruct (Nat.ltb_spec (10 * d1 + d2) 24); [|done].
  destruct (Nat.ltb_spec (10 * d3 + d4) 60); [|done].
  cbn [andb]. intros [= <-].
  exists (10 * d1 + d2), (10 * d3 + d4).
  assert ((10 * d1 + d2) / 10 = d1) as -> by (symmetry; apply (Nat.div_unique _ 10 _ d2); lia).
  assert ((10 * d1 + d2) mod 10 = d2) as -> by (symmetry; apply (Nat.mod_unique _ 10 d1); lia).
  assert ((10 * d3 + d4) / 10 = d3) as -> by (symmetry; apply (Nat.div_unique _ 10 _ d4); lia).
  assert ((10 * d3 + d4) mod 10 = d4) as -> by (symmetry; apply (Nat.mod_unique _ 10 d3); lia).
  done.
Qed.

Lemma parseTimeRange_text h1 m1 h2 m2 :
  h1 < 24 → m1 < 60 → h2 < 24 → m2 < 60 →
  parseTimeRange (rangeText h1 m1 h2 m2)
  = if 60 * h1 + m1 <? 60 * h2 + m2
    then inr (60 * h1 + m1, 60 * h2 + m2)
    else inl MalformedTimeRange.
Proof.
  intros. unfold rangeText, clockText, twoDigits, String.app. cbn [String.append].
  unfold parseTimeRange. cbn [Ascii.eqb Bool.eqb andb].
  by rewrite !parseClock_text.
Qed.

Lemma parseTimeRange_inr s a b :
  parseTimeRange s = inr (a, b) ↔ wellFormedRange s a b.
Proof.
  split.
  - unfold parseTimeRange.
    destruct s as [|c1 [|c2 [|c3 [|c4 [|c5 [|c6 [|c7 [|c8 [|c9 [|c10 [|c11
      [|]]]]]]]]]]]]; try discriminate.
    destruct (Ascii.eqb_spec c3 ":"); [subst|discriminate].
    destruct (Ascii.eqb_spec c6 "-"); [subst|discriminate].
    destruct (Ascii.eqb_spec c9 ":"); [subst|discriminate].
    cbn [andb].
    destruct (parseClock c1 c2 c4 c5) as [a'|] eqn:Ha; [|discriminate].
    destruct (parseClock c7 c8 c10 c11) as [b'|] eqn:Hb; [|discriminate].
    destruct (Nat.ltb_spec a' b'); [|discriminate]. intros [= <- <-].
    apply parseClock_Some in Ha as (h1 & m1 & ? & ? & -> & -> & -> & -> & ->).
    apply parseClock_Some in Hb as (h2 & m2 & ? & ? & -> & -> & -> & -> & ->).
    by exists h1, m1, h2, m2.
  - intros (h1 & m1 & h2 & m2 & ? & ? & ? & ? & -> & -> & -> & Hlt).
    rewrite parseTimeRange_text by done.
    by destruct (Nat.ltb_spec (60 * h1 + m1) (60 * h2 + m2)); [|lia].
Qed.

Lemma parseTimeRange_inl s e : parseTimeRange s = inl e → e = MalformedTimeRange.
Proof.
  unfold parseTimeRange. repeat case_match; by intros [= <-].
Qed.

Lemma parseTimeRange_malformed s :
  parseTimeRange s = inl MalformedTimeRange ↔ malformed s.
Proof.
  unfold malformed. split.
  - intros Hs (a & b & Hab%parseTimeRange_inr). congruence.
  - intros Hno. destruct (parseTimeRange s) as [e|[a b]] eqn:Hs.
    + by apply parseTimeRange_inl in Hs as ->.
    + destruct Hno. exists a, b. by apply parseTimeRange_inr.
Qed.

Lemma parseFrom_app k pre post :
  parseFrom k (pre ++ post)
  = ((parseFrom k pre).1 ++ (parseFrom (k + length pre) post).1,
     (parseFrom k pre).2 ++ (parseFrom (k + length pre) post).2).
Proof.
  revert k. induction pre as [|r pre IH]; intros k; simpl.
  { rewrite Nat.add_0_r. by destruct (parseFrom k post). }
  rewrite IH. replace (S k + length pre) with (k + S (length pre)) by lia.
  by destruct (parseEntry r).
Qed.

Lemma parseEntry_malformed r :
  malformed (TimetableManager.time r) → parseEntry r = inl MalformedTimeRange.
Proof.
  intros Hr%parseTimeRange_malformed. unfold parseEntry. by rewrite Hr.
Qed.

End parser_facts.

(** C4: the parser returns (start, end) exactly for the strings HH:MM-HH:MM of
    two 24-hour clock times with start < end, and [MalformedTimeRange] for
    every other string. A row with a malformed range contributes no entry and
    one warning carrying its index; the rows before and after it are parsed
    as they would be without it, at their own indices. *)
Theorem malformed_range_is_skipped_with_warning
    (s : string) (pre post : list TimetableEntry) (r : TimetableEntry) :
  (∀ a b, Core.parseTimeRange s = inr (a, b) ↔ Core.wellFormedRange s a b)
  ∧ (Core.parseTimeRange s = inl Core.MalformedTimeRange ↔ Core.malformed s)
  ∧ (Core.malformed (time r) →
     (Core.parseEntries (pre ++ r :: post)).1
     = (Core.parseEntries pre).1 ++ (Core.parseFrom (S (length pre)) post).1
     ∧ (Core.parseEntries (pre ++ r :: post)).2
       = (Core.parseEntries pre).2
         ++ Core.mkWarning (length pre) Core.MalformedTimeRange
            :: (Core.parseFrom (S (length pre)) post).2).
Proof.
  split; [apply parseTimeRange_inr|]. split; [apply parseTimeRange_malformed|].
  intros Hr. unfold Core.parseEntries. rewrite parseFrom_app. simpl.
  by rewrite (parseEntry_malformed r Hr).
Qed.

Lemma malformed_range_is_skipped_with_warning_witness :
  Core.malformed "9-10:30"
  ∧ Core.parseEntries
      [Core.goodTimeRow "entry_0" "CS101"; Core.badTimeRow;
       Core.goodTimeRow "entry_2" "PHY101"]
    = ([ Core.mkEntry "CS101" "A" "Mon" 540 630 "R1" "Theory" None;
         Core.mkEntry "PHY101" "A" "Mon" 540 630 "R1" "Theory" None ],
       [ Core.mkWarning 1 Core.MalformedTimeRange ]).
Proof.
  pose proof (malformed_range_is_skipped_with_warning "9-10:30"
                [Core.goodTimeRow "entry_0" "CS101"]
                [Core.goodTimeRow "entry_2" "PHY101"] Core.badTimeRow)
    as (_ & Hbad & Hskip).
  assert (Core.malformed "9-10:30") as Hm by (by apply Hbad).
  split; [exact Hm|].
  destruct (Hskip Hm) as [H1 H2].
  change [Core.goodTimeRow "entry_0" "CS101"; Core.badTimeRow;
          Core.goodTimeRow "entry_2" "PHY101"]
    with ([Core.goodTimeRow "entry_0" "CS101"]
          ++ Core.badTimeRow :: [Core.goodTimeRow "entry_2" "PHY101"]).
  rewrite (surjective_pairing (Core.parseEntries _)), H1, H2. reflexivity.
Defined.

(** ** Recommendations *)

Section recommend_facts.

Import Core.

Implicit Types (side alt : Entry) (allEntries : list Entry) (sel : gset string).

Lemma elem_of_alternativesFor alt side allEntries sel :
  alt ∈ alternativesFor side allEntries sel ↔
  alt ∈ allEntries
  ∧ course_code alt = course_code side
  ∧ section alt ≠ section side
  ∧ ∀ o, o ∈ othersSelected side alt allEntries sel → ¬ clashes alt o.
Proof.
  unfold alternativesFor. rewrite list_elem_of_filter, Forall_forall.
  tauto.
Qed.

Lemma alternativesFor_nil side allEntries sel :
  noAlternative side allEntries sel → alternativesFor side allEntries sel = [].
Proof.
  intros Hno. apply elem_of_nil_inv. intros alt.
  rewrite elem_of_alternativesFor. intros (Hin & Hcode & Hsec & Hfree).
  destruct (Hno alt Hin Hcode Hsec) as (o & Ho & Hclash).
  by apply (Hfree o).
Qed.

Lemma onlyOneSection_noAlternative side allEntries sel :
  onlyOneSection side allEntries → noAlternative side allEntries sel.
Proof. intros Hone alt Hin Hcode Hsec. destruct Hsec. by apply Hone. Qed.

End recommend_facts.

(** C8: [recommend] is a total function and answers with a record for the
    conflict it was given. When neither side has another section free of
    clashes the list of alternatives is empty; in particular a course with a
    single section contributes no alternative, and two such courses give the
    empty list. *)
Theorem recommend_without_alternative_is_empty
    (c : Core.Conflict) (allEntries : list Core.Entry) (sel : gset string) :
  Core.conflict (Core.recommend c allEntries sel) = c
  ∧ (Core.noAlternative (Core.entry_a c) allEntries sel →
     Core.noAlternative (Core.entry_b c) allEntries sel →
     Core.recommend c allEntries sel = Core.mkRecommendation c [])
  ∧ (Core.onlyOneSection (Core.entry_a c) allEntries →
     Core.alternativesFor (Core.entry_a c) allEntries sel = [])
  ∧ (Core.onlyOneSection (Core.entry_b c) allEntries →
     Core.alternativesFor (Core.entry_b c) allEntries sel = [])
  ∧ (Core.onlyOneSection (Core.entry_a c) allEntries →
     Core.onlyOneSection (Core.entry_b c) allEntries →
     Core.alternative_sections (Core.recommend c allEntries sel) = []).
Proof.
  split; [done|]. split.
  { intros Ha Hb. unfold Core.recommend.
    by rewrite !alternativesFor_nil. }
  split.
  { intros Ha. by apply alternativesFor_nil, onlyOneSection_noAlternative. }
  split.
  { intros Hb. by apply alternativesFor_nil, onlyOneSection_noAlternative. }
  intros Ha Hb. simpl.
  by rewrite !alternativesFor_nil by by apply onlyOneSection_noAlternative.
Qed.

Lemma recommend_without_alternative_is_empty_witness :
  Core.onlyOneSection Core.cs101 [Core.cs101; Core.math201]
  ∧ Core.onlyOneSection Core.math201 [Core.cs101; Core.math201]
  ∧ Core.alternative_sections
      (Core.recommend (Core.mkConflict "Mon" Core.cs101 Core.math201)
         [Core.cs101; Core.math201] {["CS101"; "MATH201"]}) = [].
Proof.
  assert (Core.onlyOneSection Core.cs101 [Core.cs101; Core.math201]) as Ha.
  { intros e He Hc. apply list_elem_of_In in He.
    destruct He as [<-|[<-|[]]]; [reflexivity|discriminate Hc]. }
  assert (Core.onlyOneSection Core.math201 [Core.cs101; Core.math201]) as Hb.
  { intros e He Hc. apply list_elem_of_In in He.
    destruct He as [<-|[<-|[]]]; [discriminate Hc|reflexivity]. }
  split; [exact Ha|]. split; [exact Hb|].
  exact (proj2 (proj2 (proj2 (proj2
    (recommend_without_alternative_is_empty
       (Core.mkConflict "Mon" Core.cs101 Core.math201)
       [Core.cs101; Core.math201] {["CS101"; "MATH201"]})))) Ha Hb).
Defined.

(** ** Overlap detector *)

Section detector_facts.

Import Core.

Implicit Types (a b : Entry) (c : Conflict) (l rest : list Entry)
  (sel : gset string).

Lemma overlaps_intersects a b : overlaps a b = true ↔ intersects a b.
Proof.
  unfold overlaps, intersects. rewrite Nat.ltb_lt. split.
  - intros Hlt. exists (start_time a `max` start_time b). lia.
  - intros (t & Ha & Hb). lia.
Qed.

Lemma overlaps_comm a b : overlaps a b = overlaps b a.
Proof. unfold overlaps. by rewrite Nat.max_comm, Nat.min_comm. Qed.

Lemma disjoint_not_intersects a b :
  end_time a ≤ start_time b ∨ end_time b ≤ start_time a → ¬ intersects a b.
Proof. intros Hd (t & Ha & Hb). lia. Qed.

Lemma conflicting_sym a b : conflicting a b → conflicting b a.
Proof.
  intros (Hd & Hi & Hc). repeat split; [done| |done].
  by rewrite <-overlaps_intersects, overlaps_comm, overlaps_intersects.
Qed.

Global Instance key_le_total : Total key_le.
Proof.
  intros a b. unfold key_le.
  destruct (lt_eq_lt_dec (start_time a) (start_time b)) as [[Hlt|Heq]|Hgt].
  - left. by left.
  - destruct (total String.le (course_code a) (course_code b)).
    + left. by right.
    + right. by right.
  - right. by left.
Qed.

Global Instance key_le_trans : Transitive key_le.
Proof.
  intros a b c [Hab|[Hab Hab']] [Hbc|[Hbc Hbc']]; unfold key_le.
  - left. lia.
  - left. lia.
  - left. lia.
  - right. split; [lia|]. by etrans.
Qed.

Lemma key_le_start a b : key_le a b → startOrder a b.
Proof. unfold startOrder. intros [?|[? _]]; lia. Qed.

Lemma key_le_antisym a b :
  key_le a b → key_le b a → course_code a = course_code b.
Proof.
  intros [Hab|[Hab Hab']] [Hba|[Hba Hba']]; try lia.
  by apply (anti_symm String.le).
Qed.

(** *** One scan *)

Lemma elem_of_scan a rest c :
  c ∈ scan a rest →
  ∃ b, b ∈ rest ∧ c = mkConflict (day a) a b
       ∧ overlaps a b = true ∧ course_code a ≠ course_code b.
Proof.
  induction rest as [|b rest IH]; simpl; [by intros ?%elem_of_nil|].
  destruct (end_time a <=? start_time b); [by intros ?%elem_of_nil|].
  rewrite elem_of_app. intros [Hhead|Htail].
  - destruct (overlaps a b) eqn:Ho; [|by apply elem_of_nil in Hhead].
    destruct (bool_decide_reflect (course_code a ≠ course_code b)) as [Hne|];
      simpl in Hhead; [|by apply elem_of_nil in Hhead].
    apply list_elem_of_singleton in Hhead as ->.
    exists b. split; [left|done].
  - destruct (IH Htail) as (b' & Hb' & Hrest). exists b'. split; [by right|done].
Qed.

Lemma scan_complete a rest b :
  StronglySorted startOrder rest →
  b ∈ rest → overlaps a b = true → course_code a ≠ course_code b →
  mkConflict (day a) a b ∈ scan a rest.
Proof.
  intros Hsorted Hb Ho Hne.
  induction Hsorted as [|b' rest Hsorted IH Hall]; [by apply elem_of_nil in Hb|].
  simpl. destruct (Nat.leb_spec (end_time a) (start_time b')) as [Hstop|Hgo].
  - assert (startOrder b' b) as Hle.
    { apply elem_of_cons in Hb as [->|Hb]; [by unfold startOrder|].
      rewrite Forall_forall in Hall. by apply Hall. }
    unfold overlaps in Ho. apply Nat.ltb_lt in Ho. unfold startOrder in Hle. lia.
  - rewrite elem_of_app. apply elem_of_cons in Hb as [->|Hb].
    + left. rewrite Ho, bool_decide_true by done. simpl. left.
    + right. by apply IH.
Qed.

Lemma NoDup_scan a rest : NoDup rest → NoDup (scan a rest).
Proof.
  induction 1 as [|b rest Hb Hrest IH]; simpl; [constructor|].
  destruct (end_time a <=? start_time b); [constructor|].
  destruct (overlaps a b && bool_decide (course_code a ≠ course_code b));
    [|done].
  simpl. constructor; [|done].
  intros (b' & Hb' & [= <-] & _)%elem_of_scan. done.
Qed.

(** *** The sweep *)

Lemma elem_of_sweep l c :
  c ∈ sweep l →
  ∃ l1 a l2 b, l = l1 ++ a :: l2 ∧ b ∈ l2 ∧ c = mkConflict (day a) a b
               ∧ overlaps a b = true ∧ course_code a ≠ course_code b.
Proof.
  induction l as [|a l IH]; simpl; [by intros ?%elem_of_nil|].
  rewrite elem_of_app. intros [(b & Hb & Hc)%elem_of_scan|Htail].
  - by exists [], a, l, b.
  - destruct (IH Htail) as (l1 & a' & l2 & b & -> & Hrest).
    by exists (a :: l1), a', l2, b.
Qed.

Lemma sweep_complete l1 a l2 b :
  StronglySorted startOrder (l1 ++ a :: l2) →
  b ∈ l2 → overlaps a b = true → course_code a ≠ course_code b →
  mkConflict (day a) a b ∈ sweep (l1 ++ a :: l2).
Proof.
  intros Hsorted Hb Ho Hne. induction l1 as [|x l1 IH]; simpl.
  - rewrite elem_of_app. left. apply scan_complete; [|done..].
    by apply StronglySorted_inv in Hsorted as [? _].
  - rewrite elem_of_app. right. apply IH.
    by apply StronglySorted_inv in Hsorted as [? _].
Qed.

Lemma NoDup_sweep l : NoDup l → NoDup (sweep l).
Proof.
  induction 1 as [|a l Ha Hl IH]; simpl; [constructor|].
  apply NoDup_app. split; [by apply NoDup_scan|]. split; [|done].
  intros c (b & _ & -> & _)%elem_of_scan
           (l1 & a' & l2 & b' & -> & _ & [= _ <- _] & _)%elem_of_sweep.
  apply Ha. rewrite elem_of_app. right. left.
Qed.

(** Two distinct members of a list: one of them comes first. *)
Lemma elem_of_two_split {A} (xs : list A) (x y : A) :
  x ∈ xs → y ∈ xs → x ≠ y →
  (∃ xs1 xs2, xs = xs1 ++ x :: xs2 ∧ y ∈ xs2)
  ∨ (∃ xs1 xs2, xs = xs1 ++ y :: xs2 ∧ x ∈ xs2).
Proof.
  intros Hx Hy Hne. induction xs as [|z xs IH]; [by apply elem_of_nil in Hx|].
  apply elem_of_cons in Hx as [->|Hx], Hy as [->|Hy].
  - done.
  - left. by exists [], xs.
  - right. by exists [], xs.
  - destruct (IH Hx Hy) as [(xs1 & xs2 & -> & ?)|(xs1 & xs2 & -> & ?)].
    + left. by exists (z :: xs1), xs2.
    + right. by exists (z :: xs1), xs2.
Qed.

Lemma elem_of_sweep_sorted l c :
  StronglySorted key_le l →
  c ∈ sweep l ↔
  ∃ a b, a ∈ l ∧ b ∈ l ∧ c = mkConflict (day a) a b
         ∧ overlaps a b = true ∧ course_code a ≠ course_code b
         ∧ key_le a b.
Proof.
  intros Hsorted. split.
  - intros (l1 & a & l2 & b & -> & Hb & -> & Ho & Hne)%elem_of_sweep.
    exists a, b. split; [set_solver|]. split; [set_solver|].
    do 3 (split; [done|]).
    apply StronglySorted_app_1_r, StronglySorted_inv in Hsorted as [_ Hall].
    rewrite Forall_forall in Hall. by apply Hall.
  - intros (a & b & Ha & Hb & -> & Ho & Hne & Hle).
    assert (StronglySorted startOrder l) as Hstart.
    { eapply StronglySorted_weaken; [|done]. intros. by apply key_le_start. }
    destruct (elem_of_two_split l a b) as
      [(l1 & l2 & -> & Hin)|(l1 & l2 & -> & Hin)]; [done|done|congruence|..].
    + by apply sweep_complete.
    + apply StronglySorted_app_1_r, StronglySorted_inv in Hsorted as [_ Hall].
      rewrite Forall_forall in Hall. destruct Hne.
      apply key_le_antisym; [done|]. by apply Hall.
Qed.

(** *** The detector *)

Lemma elem_of_dayGroups l g :
  g ∈ dayGroups l ↔
  ∃ d, d ∈ day <$> l ∧ g = filter (λ e, day e = d) l.
Proof.
  unfold dayGroups. rewrite list_elem_of_fmap.
  setoid_rewrite elem_of_remove_dups.
  split; intros (d & ? & ?); by exists d.
Qed.

Lemma elem_of_findConflicts es sel c :
  c ∈ findConflicts es sel ↔
  ∃ a b, a ∈ es ∧ b ∈ es
         ∧ course_code a ∈ sel ∧ course_code b ∈ sel
         ∧ day a = day b
         ∧ c = mkConflict (day a) a b
         ∧ overlaps a b = true ∧ course_code a ≠ course_code b
         ∧ key_le a b.
Proof.
  unfold findConflicts. rewrite list_elem_of_bind. split.
  - intros (g & Hc & (d & _ & ->)%elem_of_dayGroups).
    apply elem_of_sweep_sorted in Hc; [|apply StronglySorted_merge_sort; apply _].
    destruct Hc as (a & b & Ha & Hb & -> & Hrest).
    rewrite merge_sort_Permutation in Ha, Hb.
    apply list_elem_of_filter in Ha as [Hda [Hsa Ha]%list_elem_of_filter].
    apply list_elem_of_filter in Hb as [Hdb [Hsb Hb]%list_elem_of_filter].
    exists a, b. repeat (split; [done || congruence|]). done.
  - intros (a & b & Ha & Hb & Hsa & Hsb & Hd & -> & Hrest).
    exists (filter (λ e, day e = day a)
                   (filter (λ e, course_code e ∈ sel) es)).
    split.
    + apply elem_of_sweep_sorted; [apply StronglySorted_merge_sort; apply _|].
      exists a, b. rewrite !merge_sort_Permutation, !list_elem_of_filter.
      done.
    + apply elem_of_dayGroups. exists (day a). split; [|done].
      apply list_elem_of_fmap. exists a. by rewrite list_elem_of_filter.
Qed.

Lemma NoDup_dayGroups l : NoDup (dayGroups l).
Proof.
  unfold dayGroups. apply NoDup_fmap_2_strong; [|apply NoDup_remove_dups].
  intros d1 d2 Hd1 _ Heq.
  apply elem_of_remove_dups, list_elem_of_fmap in Hd1 as (e & -> & He).
  assert (e ∈ filter (λ e', day e' = day e) l) as Hin
    by by apply list_elem_of_filter.
  rewrite Heq in Hin. by apply list_elem_of_filter in Hin as [? _].
Qed.

Lemma NoDup_findConflicts es sel : NoDup es → NoDup (findConflicts es sel).
Proof.
  intros Hes. unfold findConflicts. apply NoDup_bind.
  - intros g1 g2 c (d1 & _ & ->)%elem_of_dayGroups
                   (d2 & _ & ->)%elem_of_dayGroups
           (l1 & a & l2 & b & Hg1 & _ & -> & _)%elem_of_sweep
           (l1' & a' & l2' & b' & Hg2 & _ & [= _ <- _] & _)%elem_of_sweep.
    assert (a ∈ merge_sort key_le
                  (filter (λ e, day e = d1)
                     (filter (λ e, course_code e ∈ sel) es))) as H1
      by (rewrite Hg1; set_solver).
    assert (a ∈ merge_sort key_le
                  (filter (λ e, day e = d2)
                     (filter (λ e, course_code e ∈ sel) es))) as H2
      by (rewrite Hg2; set_solver).
    rewrite merge_sort_Permutation in H1, H2.
    apply list_elem_of_filter in H1 as [<- _], H2 as [<- _]. done.
  - intros g (d & _ & ->)%elem_of_dayGroups.
    apply NoDup_sweep. rewrite merge_sort_Permutation.
    by do 2 apply NoDup_filter.
  - apply NoDup_dayGroups.
Qed.

End detector_facts.

Section detector_claims.

Import Core.

Implicit Types (a b : Entry) (c : Conflict) (sel : gset string).

Lemma reported_iff_conflicting es sel a b :
  a ∈ es → b ∈ es → course_code a ∈ sel → course_code b ∈ sel →
  (∃ c, c ∈ findConflicts es sel ∧ reportsPair a b c) ↔ conflicting a b.
Proof.
  intros Ha Hb Hsa Hsb. split.
  - intros (c & (a' & b' & _ & _ & _ & _ & Hd & -> & Ho & Hne & _)
                  %elem_of_findConflicts & Hpair).
    assert (conflicting a' b') as Hc.
    { split; [done|]. split; [by apply overlaps_intersects|done]. }
    destruct Hpair as [[<- <-]|[<- <-]]; [done|by apply conflicting_sym].
  - intros (Hd & Hi%overlaps_intersects & Hne).
    destruct (total key_le a b) as [Hle|Hle].
    + exists (mkConflict (day a) a b). split; [|by left].
      apply elem_of_findConflicts. by exists a, b.
    + exists (mkConflict (day b) b a). split; [|by right].
      apply elem_of_findConflicts. exists b, a.
      rewrite overlaps_comm. by repeat (split; [done|]).
Qed.

Lemma reported_are_selected es sel c :
  c ∈ findConflicts es sel →
  course_code (entry_a c) ∈ sel ∧ course_code (entry_b c) ∈ sel
  ∧ entry_a c ∈ es ∧ entry_b c ∈ es
  ∧ conflicting (entry_a c) (entry_b c)
  ∧ conflict_day c = day (entry_a c).
Proof.
  intros (a & b & Ha & Hb & Hsa & Hsb & Hd & -> & Ho & Hne & _)
           %elem_of_findConflicts.
  simpl. repeat (split; [done|]). split; [|done].
  split; [done|]. split; [by apply overlaps_intersects|done].
Qed.

Lemma same_set_of_conflicts es es' sel c :
  es' ≡ₚ es → c ∈ findConflicts es' sel ↔ c ∈ findConflicts es sel.
Proof.
  intros Hperm. rewrite !elem_of_findConflicts.
  by setoid_rewrite Hperm.
Qed.

Lemma never_both_orientations es sel c c' :
  c ∈ findConflicts es sel → c' ∈ findConflicts es sel →
  ¬ (entry_a c' = entry_b c ∧ entry_b c' = entry_a c).
Proof.
  intros (a & b & _ & _ & _ & _ & _ & -> & _ & Hne & Hle)%elem_of_findConflicts
         (a' & b' & _ & _ & _ & _ & _ & -> & _ & _ & Hle')%elem_of_findConflicts
         [Ha Hb].
  simpl in *. subst. by apply Hne, key_le_antisym.
Qed.

Lemma pair_reported_once es sel a b :
  NoDup es →
  a ∈ es → b ∈ es → course_code a ∈ sel → course_code b ∈ sel →
  conflicting a b →
  length (filter (reportsPair a b) (findConflicts es sel)) = 1.
Proof.
  intros Hes Ha Hb Hsa Hsb Hconf.
  destruct (proj2 (reported_iff_conflicting es sel a b Ha Hb Hsa Hsb) Hconf)
    as (c0 & Hc0 & Hpair0).
  enough (filter (reportsPair a b) (findConflicts es sel) ≡ₚ [c0]) as ->
    by done.
  apply NoDup_Permutation.
  - by apply NoDup_filter, NoDup_findConflicts.
  - apply NoDup_singleton.
  - intros c. rewrite list_elem_of_filter, list_elem_of_singleton. split.
    + intros [Hpair Hc].
      pose proof (never_both_orientations es sel c c0 Hc Hc0) as Hno.
      pose proof Hc as (x & y & _ & _ & _ & _ & _ & -> & _)
                         %elem_of_findConflicts.
      pose proof Hc0 as (x0 & y0 & _ & _ & _ & _ & _ & -> & _)
                          %elem_of_findConflicts.
      unfold reportsPair in Hpair, Hpair0. simpl in *.
      destruct Hpair as [[-> ->]|[-> ->]], Hpair0 as [[-> ->]|[-> ->]];
        try done; by destruct Hno.
    + by intros ->.
Qed.

End detector_claims.

(** C1: for two entries of the timetable whose courses are both selected, the
    detector reports a conflict for the pair (in one orientation or the
    other) exactly when they are on the same day, their half-open intervals
    share a minute and their course codes differ; in particular a pair with
    end_a <= start_b or end_b <= start_a is never reported. Every reported
    conflict joins two entries of the timetable whose courses are selected. *)
Theorem findConflicts_reports_conflicting_selected_pairs
    (es : list Core.Entry) (sel : gset string) (a b : Core.Entry) :
  a ∈ es → b ∈ es →
  Core.course_code a ∈ sel → Core.course_code b ∈ sel →
  ((∃ c, c ∈ Core.findConflicts es sel ∧ Core.reportsPair a b c)
   ↔ Core.conflicting a b)
  ∧ (Core.end_time a ≤ Core.start_time b ∨ Core.end_time b ≤ Core.start_time a →
     ¬ ∃ c, c ∈ Core.findConflicts es sel ∧ Core.reportsPair a b c)
  ∧ (∀ c, c ∈ Core.findConflicts es sel →
       Core.course_code (Core.entry_a c) ∈ sel
       ∧ Core.course_code (Core.entry_b c) ∈ sel
       ∧ Core.entry_a c ∈ es ∧ Core.entry_b c ∈ es
       ∧ Core.conflicting (Core.entry_a c) (Core.entry_b c)
       ∧ Core.conflict_day c = Core.day (Core.entry_a c)).
Proof.
  intros Ha Hb Hsa Hsb. split; [by apply reported_iff_conflicting|]. split.
  - intros Hdisj Hrep.
    apply (reported_iff_conflicting es sel a b Ha Hb Hsa Hsb) in Hrep
      as (_ & Hi & _).
    by apply (disjoint_not_intersects a b).
  - intros c. apply reported_are_selected.
Qed.

Lemma findConflicts_reports_conflicting_selected_pairs_witness :
  Core.findConflicts [Core.cs101; Core.math201] {["CS101"; "MATH201"]}
  = [Core.mkConflict "Mon" Core.cs101 Core.math201]
  ∧ Core.findConflicts [Core.cs101; Core.math201] {["CS101"]} = []
  ∧ ((∃ c, c ∈ Core.findConflicts [Core.cs101; Core.math201]
                 {["CS101"; "MATH201"]}
           ∧ Core.reportsPair Core.cs101 Core.math201 c)
     ↔ Core.conflicting Core.cs101 Core.math201).
Proof.
  split; [reflexivity|]. split; [reflexivity|].
  refine (proj1 (findConflicts_reports_conflicting_selected_pairs
                   [Core.cs101; Core.math201] {["CS101"; "MATH201"]}
                   Core.cs101 Core.math201 _ _ _ _)).
  - apply list_elem_of_here.
  - apply list_elem_of_further, list_elem_of_here.
  - apply elem_of_union_l, elem_of_singleton. reflexivity.
  - apply elem_of_union_r, elem_of_singleton. reflexivity.
Defined.

(** C2: no two reported conflicts are each other's mirror image, and a
    reordering of the timetable reports the same set of conflicts. When the
    entries of the timetable are distinct, the conflict list has no
    repetition, a conflicting pair of selected entries is reported by exactly
    one element of the list, and reordering the timetable only reorders the
    list. *)
Theorem findConflicts_reports_each_pair_once
    (es es' : list Core.Entry) (sel : gset string) (a b : Core.Entry) :
  es' ≡ₚ es →
  (∀ c c', c ∈ Core.findConflicts es sel → c' ∈ Core.findConflicts es sel →
     ¬ (Core.entry_a c' = Core.entry_b c ∧ Core.entry_b c' = Core.entry_a c))
  ∧ (∀ c, c ∈ Core.findConflicts es' sel ↔ c ∈ Core.findConflicts es sel)
  ∧ (NoDup es →
     NoDup (Core.findConflicts es sel)
     ∧ Core.findConflicts es' sel ≡ₚ Core.findConflicts es sel
     ∧ (a ∈ es → b ∈ es →
        Core.course_code a ∈ sel → Core.course_code b ∈ sel →
        Core.conflicting a b →
        length (filter (Core.reportsPair a b) (Core.findConflicts es sel)) = 1
        ∧ length (filter (Core.reportsPair a b) (Core.findConflicts es' sel))
          = 1)).
Proof.
  intros Hperm.
  split; [intros c c'; apply never_both_orientations|].
  split; [intros c; by apply same_set_of_conflicts|].
  intros Hes.
  assert (NoDup es') as Hes' by by rewrite Hperm.
  split; [by apply NoDup_findConflicts|]. split.
  - apply NoDup_Permutation.
    + by apply NoDup_findConflicts.
    + by apply NoDup_findConflicts.
    + intros c. by apply same_set_of_conflicts.
  - intros Ha Hb Hsa Hsb Hconf. split; [by apply pair_reported_once|].
    apply pair_reported_once; try done; by rewrite Hperm.
Qed.

Lemma findConflicts_reports_each_pair_once_witness :
  NoDup [Core.cs101; Core.math201]
  ∧ [Core.math201; Core.cs101] ≡ₚ [Core.cs101; Core.math201]
  ∧ Core.findConflicts [Core.math201; Core.cs101] {["CS101"; "MATH201"]}
    = [Core.mkConflict "Mon" Core.cs101 Core.math201]
  ∧ Core.findConflicts [Core.math201; Core.cs101] {["CS101"; "MATH201"]}
    ≡ₚ Core.findConflicts [Core.cs101; Core.math201] {["CS101"; "MATH201"]}.
Proof.
  assert (NoDup [Core.cs101; Core.math201]) as Hnd.
  { apply NoDup_cons. split; [|apply NoDup_singleton].
    intros Hin%list_elem_of_singleton. discriminate Hin. }
  assert ([Core.math201; Core.cs101] ≡ₚ [Core.cs101; Core.math201]) as Hp
    by apply Permutation_swap.
  split; [exact Hnd|]. split; [exact Hp|]. split; [reflexivity|].
  exact (proj1 (proj2 (proj2 (proj2
    (findConflicts_reports_each_pair_once
       [Core.cs101; Core.math201] [Core.math201; Core.cs101]
       {["CS101"; "MATH201"]} Core.cs101 Core.math201 Hp)) Hnd))).
Defined.

(** * Further properties of the component *)

Import TimetableHandlers.

(** ** The display filter *)

Section filter_facts.

Implicit Types (l : list TimetableEntry) (s : State) (x v : string).

Lemma filter_all {A} (P : A → Prop) `{∀ a, Decision (P a)} (xs : list A) :
  (∀ a, a ∈ xs → P a) → filter P xs = xs.
Proof.
  induction xs as [|a xs IH]; intros Hall; [done|].
  rewrite filter_cons_True by (apply Hall; left).
  f_equal. apply IH. intros b Hb. apply Hall. by right.
Qed.

Lemma truthyStr_false x : truthyStr x = false ↔ x = "".
Proof.
  unfold truthyStr. destruct (String.eqb_spec x ""); split; try done.
Qed.

Lemma optional_filter x (P : TimetableEntry → Prop) `{∀ e, Decision (P e)} l :
  (if truthyStr x then filter P l else l) = filter (λ e, x = "" ∨ P e) l.
Proof.
  destruct (truthyStr x) eqn:Hx.
  - apply list_filter_iff. intros e. split; [by right|].
    intros [->|?]; [done|done].
  - apply truthyStr_false in Hx as ->. symmetry. apply filter_all. by left.
Qed.

Lemma applyFilters_filter s :
  filteredData (applyFilters s) = filter (passes (filters s)) (timetableData s).
Proof.
  unfold applyFilters. simpl.
  rewrite !optional_filter, !list_filter_filter.
  apply list_filter_iff. intros e. unfold passes. tauto.
Qed.

End filter_facts.

(** X1: the filtered view is the timetable restricted to the entries that
    pass every filter that is set: it keeps the timetable's order, is never
    longer than the timetable, and does not depend on the department field
    of the filters. *)
Theorem applyFilters_keeps_passing_entries (s : State) :
  filteredData (applyFilters s) = filter (passes (filters s)) (timetableData s)
  ∧ filteredData (applyFilters s) `sublist_of` timetableData s
  ∧ length (filteredData (applyFilters s)) ≤ length (timetableData s)
  ∧ (∀ e, e ∈ filteredData (applyFilters s)
          ↔ e ∈ timetableData s ∧ passes (filters s) e)
  ∧ (∀ d, filteredData (applyFilters (handleFilterChange "department" d s))
          = filteredData (applyFilters s)).
Proof.
  rewrite applyFilters_filter. split; [done|].
  split; [apply sublist_filter|]. split; [apply length_filter|].
  split.
  - intros e. rewrite list_elem_of_filter. tauto.
  - intros d. by rewrite applyFilters_filter.
Qed.

Section substring_facts.

Implicit Types (s n pre post v : string) (c : ascii).

Lemma app_nil_l_string s : "" +:+ s = s.
Proof. reflexivity. Qed.

Lemma app_cons_string c s1 s2 : String c s1 +:+ s2 = String c (s1 +:+ s2).
Proof. reflexivity. Qed.

Lemma prefix_spec n s : String.prefix n s = true ↔ ∃ post, s = n +:+ post.
Proof.
  revert s. induction n as [|a n IH]; intros s.
  - split; [|by destruct s]. intros _. by exists s.
  - destruct s as [|b s]; simpl.
    + split; [done|]. by intros (post & ?).
    + destruct (ascii_dec a b) as [->|Hne].
      * rewrite IH. split; intros (post & Hpost); exists post.
        -- by rewrite app_cons_string, Hpost.
        -- rewrite app_cons_string in Hpost. by injection Hpost.
      * split; [done|]. intros (post & Hpost).
        rewrite app_cons_string in Hpost. by injection Hpost as -> _.
Qed.

Lemma includes_nil n : Js.includes "" n = String.prefix n "" || false.
Proof. reflexivity. Qed.

Lemma includes_cons c s n :
  Js.includes (String c s) n = String.prefix n (String c s) || Js.includes s n.
Proof. reflexivity. Qed.

Lemma includes_spec s n : Js.includes s n = true ↔ substring n s.
Proof.
  unfold substring. induction s as [|c s IH].
  - rewrite includes_nil, orb_false_r, prefix_spec. split.
    + intros (post & Hpost). by exists "", post.
    + intros ([|? ?] & post & Hpost); [by exists post|done].
  - rewrite includes_cons, orb_true_iff, prefix_spec, IH. split.
    + intros [(post & ->)|(pre & post & ->)].
      * by exists "", post.
      * by exists (String c pre), post.
    + intros ([|c' pre] & post & Hs).
      * left. by exists post.
      * right. rewrite app_cons_string in Hs. injection Hs as -> ->.
        by exists pre, post.
Qed.

Lemma lowerChar_idemp c : Js.lowerChar (Js.lowerChar c) = Js.lowerChar c.
Proof. by destruct c as [[] [] [] [] [] [] [] []]. Qed.

Lemma toLowerCase_idemp s : Js.toLowerCase (Js.toLowerCase s) = Js.toLowerCase s.
Proof. induction s as [|c s IH]; simpl; [done|]. by rewrite lowerChar_idemp, IH. Qed.

Lemma toLowerCase_empty s : Js.toLowerCase s = "" ↔ s = "".
Proof. by destruct s. Qed.

End substring_facts.

(** X2, for text within ASCII: when the course and room filters and the
    course and room of an entry hold ASCII characters only, the entry is
    shown exactly when it belongs to the timetable, the course filter with
    its letters A to Z lower-cased occurs somewhere in its course lower-cased
    the same way (if a course filter is set), its day and type equal the day
    and type filters (if set), and the room filter occurs likewise in its
    room (if set). *)
Theorem filters_match_by_substring_and_equality (s : State)
    (e : TimetableEntry) :
  Js.isAscii (f_course (filters s)) = true →
  Js.isAscii (f_room (filters s)) = true →
  Js.isAscii (course e) = true →
  Js.isAscii (room e) = true →
  (e ∈ filteredData (applyFilters s) ↔
   e ∈ timetableData s
   ∧ (f_course (filters s) = ""
      ∨ substring (Js.toLowerCase (f_course (filters s)))
                  (Js.toLowerCase (course e)))
   ∧ (f_day (filters s) = "" ∨ day e = f_day (filters s))
   ∧ (f_type (filters s) = "" ∨ type e = f_type (filters s))
   ∧ (f_room (filters s) = ""
      ∨ substring (Js.toLowerCase (f_room (filters s)))
                  (Js.toLowerCase (room e)))).
Proof.
  intros _ _ _ _.
  rewrite applyFilters_filter, list_elem_of_filter. unfold passes.
  rewrite !includes_spec. tauto.
Qed.

Lemma filters_match_by_substring_and_equality_witness :
  Js.isAscii "cs2" = true
  ∧ Js.isAscii "LAB" = true
  ∧ Js.isAscii "CS2001" = true
  ∧ Js.isAscii "CS-Lab-1" = true
  ∧ mockEntry "3" "CS2001" "A" "Friday" "14:00-15:30" "Lab" "CS-Lab-1"
      "Data Structures Lab"
    ∈ filteredData
        (applyFilters
           (handleFilterChange "room" "LAB"
              (handleFilterChange "course" "cs2" sampleState))).
Proof.
  do 4 (split; [reflexivity|]).
  apply (proj2 (filters_match_by_substring_and_equality
                  (handleFilterChange "room" "LAB"
                     (handleFilterChange "course" "cs2" sampleState))
                  (mockEntry "3" "CS2001" "A" "Friday" "14:00-15:30" "Lab"
                     "CS-Lab-1" "Data Structures Lab")
                  eq_refl eq_refl eq_refl eq_refl)).
  split; [by do 2 right; left|].
  split; [right; by exists "", "001"|].
  split; [by left|]. split; [by left|].
  right. by exists "cs-", "-1".
Defined.

(** X3: the course and room filters ignore the ASCII case of what is typed:
    a filter text and its lower-cased form give the same view. *)
Theorem text_filters_ignore_case (s : State) (v : string) :
  filteredData (applyFilters (handleFilterChange "course" v s))
  = filteredData
      (applyFilters (handleFilterChange "course" (Js.toLowerCase v) s))
  ∧ filteredData (applyFilters (handleFilterChange "room" v s))
    = filteredData
        (applyFilters (handleFilterChange "room" (Js.toLowerCase v) s)).
Proof.
  rewrite !applyFilters_filter. split.
  - apply list_filter_iff. intros e. unfold passes. simpl.
    rewrite toLowerCase_idemp, toLowerCase_empty. tauto.
  - apply list_filter_iff. intros e. unfold passes. simpl.
    rewrite toLowerCase_idemp, toLowerCase_empty. tauto.
Qed.

(** ** Course selection *)

Section selection_facts.

Implicit Types (s : State) (c : string) (sel : list string).

Lemma remove_added c sel :
  c ∉ sel → filter (λ c', c' ≠ c) (sel ++ [c]) = sel.
Proof.
  intros Hc. rewrite filter_app, filter_cons_False by (by intros ?).
  rewrite filter_nil, app_nil_r. apply filter_all.
  intros c' Hc' ->. done.
Qed.

Lemma add_removed c sel :
  NoDup sel → c ∈ sel → filter (λ c', c' ≠ c) sel ++ [c] ≡ₚ sel.
Proof.
  intros Hnd Hc. apply NoDup_Permutation; [|done|].
  - apply NoDup_app. split; [by apply NoDup_filter|].
    split; [|apply NoDup_singleton].
    intros c' [Hne _]%list_elem_of_filter ->%list_elem_of_singleton. done.
  - intros c'. rewrite elem_of_app, list_elem_of_filter, list_elem_of_singleton.
    destruct (decide (c' = c)) as [->|]; tauto.
Qed.

Lemma toggleCourse_selected c s :
  selectedCourses (toggleCourse c s)
  = if decide (c ∈ selectedCourses s)
    then filter (λ c', c' ≠ c) (selectedCourses s)
    else selectedCourses s ++ [c].
Proof.
  unfold toggleCourse, handleCourseSelection.
  destruct (decide (c ∈ selectedCourses s)) as [Hc|Hc].
  - by rewrite bool_decide_true.
  - by rewrite bool_decide_false.
Qed.

End selection_facts.

(** X4: unchecking a course removes every occurrence of it and leaves the
    other selected courses as they were; checking a course that was not
    selected and unchecking it again restores the selection; a click on a
    course box selects the course exactly when it was not selected, and two
    clicks on the same box give back the same selected courses (up to their
    order) when no course was listed twice. *)
Theorem course_selection_round_trip (s : State) (c : string) :
  (c ∉ selectedCourses (handleCourseSelection c false s))
  ∧ (∀ c', c' ≠ c →
       c' ∈ selectedCourses (handleCourseSelection c false s)
       ↔ c' ∈ selectedCourses s)
  ∧ (c ∉ selectedCourses s →
     selectedCourses
       (handleCourseSelection c false (handleCourseSelection c true s))
     = selectedCourses s)
  ∧ (c ∈ selectedCourses (toggleCourse c s) ↔ c ∉ selectedCourses s)
  ∧ (NoDup (selectedCourses s) →
     selectedCourses (toggleCourse c (toggleCourse c s))
     ≡ₚ selectedCourses s).
Proof.
  split; [|split; [|split; [|split]]].
  - simpl. rewrite list_elem_of_filter. by intros [? _].
  - intros c' Hne. simpl. rewrite list_elem_of_filter. tauto.
  - intros Hc. simpl. by apply remove_added.
  - rewrite toggleCourse_selected. case_decide.
    + rewrite list_elem_of_filter. tauto.
    + rewrite elem_of_app, list_elem_of_singleton. tauto.
  - intros Hnd. rewrite !toggleCourse_selected.
    destruct (decide (c ∈ selectedCourses s)) as [Hc|Hc].
    + rewrite decide_False by (rewrite list_elem_of_filter; tauto).
      by apply add_removed.
    + rewrite decide_True by (rewrite elem_of_app, list_elem_of_singleton; tauto).
      by rewrite remove_added.
Qed.

(** ** Statistics *)

Section stats_facts.

Implicit Types (es : list TimetableEntry) (l : list string).

Lemma length_setOf l : length (Js.setOf l) = size (list_to_set l : gset string).
Proof.
  rewrite <-(size_list_to_set (C := gset string) (Js.setOf l))
    by apply NoDup_setOf.
  f_equal. apply set_eq. intros x.
  by rewrite !elem_of_list_to_set, elem_of_setOf.
Qed.

Lemma length_setOf_le l : length (Js.setOf l) ≤ length l.
Proof.
  apply submseteq_length, NoDup_submseteq; [apply NoDup_setOf|].
  intros x. by rewrite elem_of_setOf.
Qed.

Lemma length_uniqueCoursesOf es :
  length (uniqueCoursesOf es)
  = size (list_to_set (course <$> es) ∖ {[""]} : gset string).
Proof.
  unfold uniqueCoursesOf.
  rewrite <-(size_list_to_set (C := gset string))
    by apply NoDup_filter, NoDup_setOf.
  f_equal. apply set_eq. intros x.
  rewrite elem_of_list_to_set, list_elem_of_filter, elem_of_setOf,
    elem_of_difference, elem_of_list_to_set, elem_of_singleton.
  tauto.
Qed.

Lemma class_types_partition es :
  length (filter (λ item, type item = "Theory") es)
  + length (filter (λ item, type item = "Lab") es)
  + length (filter otherType es)
  = length es.
Proof.
  induction es as [|e es IH]; [done|].
  rewrite !filter_cons. unfold otherType at 1.
  destruct (decide (type e = "Theory")) as [Ht|Ht];
    destruct (decide (type e = "Lab")) as [Hl|Hl];
    destruct (decide (type e ≠ "Theory" ∧ type e ≠ "Lab")) as [Ho|Ho];
    simpl; try lia; try (rewrite Ht in Hl; discriminate); tauto.
Qed.

End stats_facts.

(** X5: the theory classes, the lab classes and the classes of any other
    type add up to the total; and when no row of the response names a type,
    every class is counted as a theory class and none as a lab class. *)
Theorem class_counts_add_up (allEntries : list TimetableEntry)
    (rows : list RawRow) :
  theoryClasses (statsOf allEntries) + labClasses (statsOf allEntries)
  + length (filter otherType allEntries)
  = totalClasses (statsOf allEntries)
  ∧ (Forall typeMissing rows →
     theoryClasses (statsOf (processPayload (PArray rows))) = length rows
     ∧ labClasses (statsOf (processPayload (PArray rows))) = 0).
Proof.
  split; [apply class_types_partition|].
  intros Hrows. rewrite processPayload_array.
  assert (∀ e, e ∈ imap (normalizeRow "entry") rows → type e = "Theory") as Hall.
  { intros e (i & Hi)%list_elem_of_lookup.
    rewrite list_lookup_imap in Hi.
    destruct (rows !! i) as [row|] eqn:Hrow; [|done].
    injection Hi as <-.
    rewrite Forall_forall in Hrows.
    destruct (Hrows row) as [HT Ht]; [by eapply list_elem_of_lookup_2|].
    simpl. apply orStr_falsy. by apply or_falsy. }
  simpl. split.
  - by rewrite filter_all, length_imap.
  - replace (filter (λ item, type item = "Lab") _) with (@nil TimetableEntry);
      [done|].
    symmetry. apply elem_of_nil_inv. intros e [Hl He]%list_elem_of_filter.
    rewrite (Hall e He) in Hl. discriminate.
Qed.

(** X6: the three distinct counts are sizes of sets: unique rooms and days
    covered count the distinct room and day values, the empty string
    included, while unique courses counts the distinct course values other
    than the empty string; none exceeds the number of classes. *)
Theorem distinct_counts_are_set_sizes (allEntries : list TimetableEntry) :
  uniqueRooms (statsOf allEntries)
  = size (list_to_set (room <$> allEntries) : gset string)
  ∧ daysCovered (statsOf allEntries)
    = size (list_to_set (day <$> allEntries) : gset string)
  ∧ uniqueCourses (statsOf allEntries)
    = size (list_to_set (course <$> allEntries) ∖ {[""]} : gset string)
  ∧ uniqueRooms (statsOf allEntries) ≤ totalClasses (statsOf allEntries)
  ∧ daysCovered (statsOf allEntries) ≤ totalClasses (statsOf allEntries)
  ∧ uniqueCourses (statsOf allEntries) ≤ totalClasses (statsOf allEntries).
Proof.
  simpl. split; [apply length_setOf|]. split; [apply length_setOf|].
  split; [apply length_uniqueCoursesOf|].
  split; [|split].
  - etrans; [apply length_setOf_le|]. by rewrite length_fmap.
  - etrans; [apply length_setOf_le|]. by rewrite length_fmap.
  - unfold uniqueCoursesOf. etrans; [apply length_filter|].
    etrans; [apply length_setOf_le|]. by rewrite length_fmap.
Qed.

(** ** Entry ids *)

Section id_facts.

Implicit Types (f d : string) (i j : nat).

Lemma underscoreFree_pretty_N_go (x : N) d :
  underscoreFree (pretty_N_go x d) = underscoreFree d.
Proof.
  revert d. induction (N.lt_wf_0 x) as [x _ IH]; intros d.
  assert (x = 0 ∨ 0 < x)%N as [->|Hpos] by lia.
  - by rewrite pretty_N_go_0.
  - rewrite pretty_N_go_step by done. rewrite IH by (by apply N.div_lt).
    simpl. unfold pretty_N_char. by repeat case_match.
Qed.

Lemma underscoreFree_pretty i : underscoreFree (pretty i) = true.
Proof.
  unfold pretty, pretty_nat, pretty, pretty_N. case_decide; [done|].
  by rewrite underscoreFree_pretty_N_go.
Qed.

Lemma underscoreFree_app f d : underscoreFree (f +:+ String "_" d) = false.
Proof.
  induction f as [|c f IH]; [done|].
  rewrite app_cons_string. simpl. rewrite IH. apply andb_false_r.
Qed.

Lemma id_parts_inj f1 f2 d1 d2 :
  underscoreFree d1 = true → underscoreFree d2 = true →
  f1 +:+ String "_" d1 = f2 +:+ String "_" d2 → f1 = f2 ∧ d1 = d2.
Proof.
  intros H1 H2. revert f2. induction f1 as [|c f1 IH]; intros [|c' f2] Heq.
  - by injection Heq.
  - rewrite app_nil_l_string, app_cons_string in Heq. injection Heq as _ ->.
    by rewrite underscoreFree_app in H1.
  - rewrite app_nil_l_string, app_cons_string in Heq. injection Heq as _ <-.
    by rewrite underscoreFree_app in H2.
  - rewrite !app_cons_string in Heq. injection Heq as -> Heq.
    destruct (IH f2 Heq) as [-> ->]. done.
Qed.

Lemma id_inj f1 f2 i j :
  f1 +:+ "_" +:+ pretty i = f2 +:+ "_" +:+ pretty j → f1 = f2 ∧ i = j.
Proof.
  intros Heq.
  destruct (id_parts_inj f1 f2 (pretty i) (pretty j)) as [-> Hp];
    [apply underscoreFree_pretty..|done|].
  split; [done|]. by apply (inj pretty).
Qed.

Lemma elem_of_file_ids kv x :
  x ∈ id <$> entriesOfFile kv →
  ∃ i, x = kv.1 +:+ "_" +:+ pretty i.
Proof.
  unfold entriesOfFile. destruct (kv.2) as [rows|]; [|by intros ?%elem_of_nil].
  intros (e & -> & (i & Hi)%list_elem_of_lookup)%list_elem_of_fmap.
  rewrite list_lookup_imap in Hi.
  destruct (rows !! i); [|done]. injection Hi as <-. by exists i.
Qed.

Lemma NoDup_row_ids prefix (rows : list RawRow) :
  NoDup (id <$> imap (normalizeRow prefix) rows).
Proof.
  apply NoDup_alt. intros i j x Hi Hj.
  rewrite list_lookup_fmap, list_lookup_imap in Hi, Hj.
  destruct (rows !! i); [|done]. destruct (rows !! j); [|done].
  simpl in Hi, Hj. injection Hi as <-. injection Hj as Hj.
  by apply id_inj in Hj as [_ ->].
Qed.

Lemma NoDup_fst_functional {A B} (kvs : list (A * B)) x y1 y2 :
  NoDup kvs.*1 → (x, y1) ∈ kvs → (x, y2) ∈ kvs → y1 = y2.
Proof.
  intros Hnd (i1 & H1)%list_elem_of_lookup (i2 & H2)%list_elem_of_lookup.
  assert (i1 = i2) as ->; [|congruence].
  eapply NoDup_alt; [exact Hnd|..]; rewrite list_lookup_fmap.
  - by rewrite H1.
  - by rewrite H2.
Qed.

Lemma fmap_bind_list {A B C} (f : B → C) (g : A → list B) (xs : list A) :
  f <$> (xs ≫= g) = xs ≫= (λ x, f <$> g x).
Proof.
  induction xs as [|x xs IH]; [done|].
  by rewrite !bind_cons, fmap_app, IH.
Qed.

End id_facts.

(** X7: the ids given to the entries of one response are pairwise distinct,
    for an array of rows and for an object of files (whose keys, the file
    names, are distinct): no two rows of the table share their key. *)
Theorem loaded_ids_are_distinct (rows : list RawRow)
    (files : list (string * FileData)) :
  NoDup (id <$> processPayload (PArray rows))
  ∧ (NoDup files.*1 → NoDup (id <$> processPayload (PFiles files))).
Proof.
  split; [apply NoDup_row_ids|].
  intros Hnames. rewrite processPayload_files, fmap_bind_list.
  apply NoDup_bind.
  - intros [n1 d1] [n2 d2] x Hkv1 Hkv2
           (i & ->)%elem_of_file_ids (j & Hj)%elem_of_file_ids.
    apply id_inj in Hj as [Hname _]. simpl in Hname. subst n2.
    f_equal. by eapply NoDup_fst_functional.
  - intros kv _. unfold entriesOfFile.
    destruct (kv.2); [apply NoDup_row_ids|constructor].
  - by apply NoDup_fmap_1 in Hnames.
Qed.

(** ** Personal schedule *)

Lemma fold_schedule_rows (filtered_data : list (string * list RawRow)) acc :
  fold_left (λ acc kv, acc ++ imap (scheduleRow kv.1) kv.2) filtered_data acc
  = acc ++ scheduleEntries filtered_data.
Proof.
  unfold scheduleEntries. revert acc.
  induction filtered_data as [|kv fd IH]; intros acc.
  - cbn [fold_left]. by rewrite app_nil_r.
  - rewrite bind_cons. cbn [fold_left]. by rewrite IH, app_assoc.
Qed.

Lemma length_scheduleEntries (filtered_data : list (string * list RawRow)) :
  length (scheduleEntries filtered_data)
  = sum_list_with (λ kv, length kv.2) filtered_data.
Proof.
  unfold scheduleEntries. induction filtered_data as [|kv fd IH]; [done|].
  rewrite bind_cons, length_app, length_imap, IH. done.
Qed.

(** X8: building the personal schedule touches neither the timetable nor the
    filters, the statistics, the selectable or the selected courses; so the
    next run of the filter effect replaces the schedule by the filtered
    timetable, exactly as if no schedule had been built. *)
Theorem schedule_view_is_replaced_by_filter_effect
    (api : string → list string → list string
           → Response (list (string * list RawRow)))
    (s : State) :
  timetableData (buildPersonalSchedule api s) = timetableData s
  ∧ filters (buildPersonalSchedule api s) = filters s
  ∧ stats (buildPersonalSchedule api s) = stats s
  ∧ availableCourses (buildPersonalSchedule api s) = availableCourses s
  ∧ selectedCourses (buildPersonalSchedule api s) = selectedCourses s
  ∧ filteredData (applyFilters (buildPersonalSchedule api s))
    = filteredData (applyFilters s).
Proof.
  assert (timetableData (buildPersonalSchedule api s) = timetableData s
          ∧ filters (buildPersonalSchedule api s) = filters s) as [Hd Hf].
  { unfold buildPersonalSchedule.
    destruct (nothingSelected s); [done|]. by destruct (api _ _ _). }
  rewrite !applyFilters_filter, Hd, Hf.
  repeat split; unfold buildPersonalSchedule;
    (destruct (nothingSelected s); [done|]); by destruct (api _ _ _).
Qed.

(** X9: with a current timetable and a non-empty selection, a successful
    filter response is shown row by row, one entry per returned row in the
    order of the response, on the view tab; a response with [success] false
    is dropped without any message, unlike an unsuccessful conflicts
    response, which always sets a non-empty error. Both handlers end with
    [loading] false. *)
Theorem schedule_and_conflict_responses
    (filterApi : string → list string → list string
                 → Response (list (string * list RawRow)))
    (conflictsApi : string → list string → Response ConflictData)
    (s : State) (timetableId : string) :
  currentTimetableId s = Some timetableId →
  timetableId ≠ "" →
  selectedCourses s ≠ [] →
  (∀ filtered_data,
     filterApi timetableId (selectedCourses s) [] = Success filtered_data →
     filteredData (buildPersonalSchedule filterApi s)
     = scheduleEntries filtered_data
     ∧ length (filteredData (buildPersonalSchedule filterApi s))
       = sum_list_with (λ kv, length kv.2) filtered_data
     ∧ activeTab (buildPersonalSchedule filterApi s) = "view")
  ∧ (∀ err,
       filterApi timetableId (selectedCourses s) [] = Failure err →
       buildPersonalSchedule filterApi s = setLoading false s)
  ∧ (∀ err,
       conflictsApi timetableId (selectedCourses s) = Failure err →
       ∃ msg, error (checkConflicts conflictsApi s) = Some msg ∧ msg ≠ ""
              ∧ conflicts (checkConflicts conflictsApi s) = conflicts s)
  ∧ loading (buildPersonalSchedule filterApi s) = false
  ∧ loading (checkConflicts conflictsApi s) = false.
Proof.
  intros Hid Hne Hsel.
  assert (nothingSelected s = false) as Hguard.
  { unfold nothingSelected. rewrite Hid. simpl.
    destruct (String.eqb_spec timetableId ""); [done|].
    by destruct (selectedCourses s). }
  unfold buildPersonalSchedule, checkConflicts. rewrite Hguard, Hid. simpl.
  split; [|split; [|split; [|split]]].
  - intros fd ->. simpl.
    rewrite (fold_schedule_rows fd []). simpl.
    split; [done|]. split; [apply length_scheduleEntries|done].
  - intros err ->. by destruct s.
  - intros err ->. simpl. eexists. split; [done|]. split; [|done].
    destruct err as [e|]; simpl; [|done].
    by destruct (String.eqb_spec e "").
  - by destruct (filterApi timetableId (selectedCourses s) []).
  - by destruct (conflictsApi timetableId (selectedCourses s)).
Qed.

Lemma schedule_and_conflict_responses_witness :
  currentTimetableId sampleState = Some "1"
  ∧ selectedCourses (handleCourseSelection "CS2001" true sampleState) ≠ []
  ∧ loading (buildPersonalSchedule emptyFilterApi
               (handleCourseSelection "CS2001" true sampleState)) = false
  ∧ loading (checkConflicts noConflictsApi
               (handleCourseSelection "CS2001" true sampleState)) = false.
Proof.
  assert (selectedCourses (handleCourseSelection "CS2001" true sampleState)
          ≠ []) as Hsel by discriminate.
  assert ("1" ≠ "") as Hne by discriminate.
  split; [reflexivity|]. split; [exact Hsel|].
  exact (proj2 (proj2 (proj2
    (schedule_and_conflict_responses emptyFilterApi noConflictsApi
       (handleCourseSelection "CS2001" true sampleState) "1"
       eq_refl Hne Hsel)))).
Defined.

Lemma or_truthy_l' (a b : option string) :
  Js.truthy a = true → Js.or a b = a.
Proof. unfold Js.or. by intros ->. Qed.

Lemma orStr_nonempty (a : option string) (lit : string) :
  lit ≠ "" → Js.orStr a lit ≠ "".
Proof.
  intros Hlit. destruct a as [x|]; simpl; [|done].
  by destruct (String.eqb_spec x "").
Qed.

(** X10: the schedule builder reads fewer aliases than the loader. The two
    agree on id, section, day, time, type and semester of every row, on the
    course when the row has no non-empty "course_name", and on the room when
    it has no non-empty "location"; but a row that names its course only as
    "course_name" gets that name as course from the loader and the empty
    course from the schedule builder. *)
Theorem schedule_rows_read_fewer_aliases (prefix : string) (index : nat)
    (entry : RawRow) :
  (id (scheduleRow prefix index entry) = id (normalizeRow prefix index entry)
   ∧ section (scheduleRow prefix index entry)
     = section (normalizeRow prefix index entry)
   ∧ day (scheduleRow prefix index entry)
     = day (normalizeRow prefix index entry)
   ∧ time (scheduleRow prefix index entry)
     = time (normalizeRow prefix index entry)
   ∧ type (scheduleRow prefix index entry)
     = type (normalizeRow prefix index entry)
   ∧ semester (scheduleRow prefix index entry)
     = semester (normalizeRow prefix index entry))
  ∧ (Js.truthy (get entry "course_name") = false →
     course (scheduleRow prefix index entry)
     = course (normalizeRow prefix index entry))
  ∧ (Js.truthy (get entry "location") = false →
     room (scheduleRow prefix index entry)
     = room (normalizeRow prefix index entry))
  ∧ (∀ v, Js.truthy (get entry "Course") = false →
          Js.truthy (get entry "course") = false →
          get entry "course_name" = Some v → v ≠ "" →
          course (normalizeRow prefix index entry) = v
          ∧ course (scheduleRow prefix index entry) = "").
Proof.
  split; [done|]. simpl. split; [|split].
  - intros Hn. destruct (Js.truthy (Js.or (get entry "Course") (get entry "course")))
      eqn:Hc.
    + by rewrite (or_truthy_l' _ _ Hc).
    + rewrite (or_falsy_l _ _ Hc). by rewrite !orStr_falsy.
  - intros Hl. destruct (Js.truthy (Js.or (get entry "Class") (get entry "room")))
      eqn:Hc.
    + by rewrite (or_truthy_l' _ _ Hc).
    + rewrite (or_falsy_l _ _ Hc). by rewrite !orStr_falsy.
  - intros v HC Hc Hv Hne.
    rewrite (or_falsy_l _ _ HC), (or_falsy_l _ _ Hc), Hv. split.
    + simpl. by destruct (String.eqb_spec v "").
    + by apply orStr_falsy.
Qed.

Lemma schedule_rows_read_fewer_aliases_witness :
  get namedRow "course_name" = Some "Data Structures"
  ∧ course (normalizeRow "a.xlsx" 0 namedRow) = "Data Structures"
  ∧ course (scheduleRow "a.xlsx" 0 namedRow) = "".
Proof.
  assert ("Data Structures" ≠ "") as Hne by discriminate.
  split; [reflexivity|].
  exact (proj2 (proj2 (proj2
    (schedule_rows_read_fewer_aliases "a.xlsx" 0 namedRow)))
    "Data Structures" eq_refl eq_refl eq_refl Hne).
Defined.

(** ** Upload and reload *)

(** X11: an upload with no file changes nothing. With a file: when the
    upload request throws, the sample timetable is shown with the fixed
    "API unavailable" text, whatever the exception said, and the timetable
    id is left as it was; when the upload is refused, a non-empty error is
    set and the timetable stays as it was; when it succeeds, the new id is
    current and the view tab is shown even if loading the new timetable
    fails, in which case the old timetable stays on display under the new
    id. The handler always ends with [loading] false. *)
Theorem upload_outcomes (file : string) (others : list string)
    (getTimetable : string → Response Payload) (s : State) :
  (∀ upload,
     handleFileUpload None upload getTimetable s = s
     ∧ handleFileUpload (Some []) upload getTimetable s = s
     ∧ loading (handleFileUpload (Some (file :: others)) upload getTimetable s)
       = false)
  ∧ (∀ message,
       let s' := handleFileUpload (Some (file :: others)) (Thrown message)
                   getTimetable s in
       timetableData s' = mockData ∧ filteredData s' = mockData
       ∧ availableCourses s' = ["CS2001"]
       ∧ error s'
         = Some "API unavailable - showing sample data. Please try uploading again later."
       ∧ activeTab s' = "view"
       ∧ currentTimetableId s' = currentTimetableId s)
  ∧ (∀ err,
       let s' := handleFileUpload (Some (file :: others)) (Failure err)
                   getTimetable s in
       timetableData s' = timetableData s
       ∧ currentTimetableId s' = currentTimetableId s
       ∧ ∃ msg, error s' = Some msg ∧ msg ≠ "")
  ∧ (∀ timetableId,
       let s' := handleFileUpload (Some (file :: others)) (Success timetableId)
                   getTimetable s in
       currentTimetableId s' = Some timetableId
       ∧ activeTab s' = "view"
       ∧ (∀ dataToProcess,
            getTimetable timetableId = Success dataToProcess →
            timetableData s' = processPayload dataToProcess ∧ error s' = None)
       ∧ ((∀ dataToProcess, getTimetable timetableId ≠ Success dataToProcess) →
          timetableData s' = timetableData s
          ∧ ∃ msg, error s' = Some msg ∧ msg ≠ "")).
Proof.
  split; [|split; [|split]].
  - intros upload. split; [done|]. split; [done|]. simpl.
    destruct upload; [|done..]. by destruct (getTimetable data).
  - intros message. by repeat split.
  - intros err. simpl. split; [done|]. split; [done|].
    eexists. split; [done|]. by apply orStr_nonempty.
  - intros timetableId. simpl. split; [|split; [|split]].
    + by destruct (getTimetable timetableId).
    + by destruct (getTimetable timetableId).
    + by intros p ->.
    + intros Hfail. destruct (getTimetable timetableId) as [p|err|msg].
      * by destruct (Hfail p).
      * split; [done|]. eexists. split; [done|]. by apply orStr_nonempty.
      * split; [done|]. eexists. split; [done|]. by apply orStr_nonempty.
Qed.

Section reload_facts.

Implicit Types (s : State).

Lemma keepsSelection_load response s :
  keepsSelection s (loadTimetableData response s).
Proof. by destruct response. Qed.

Lemma keepsSelection_upload files upload getTimetable s :
  keepsSelection s (handleFileUpload files upload getTimetable s).
Proof.
  destruct files as [[|file others]|]; [done| |done].
  destruct upload as [timetableId| |]; [|done..].
  simpl. by destruct (getTimetable timetableId).
Qed.

Lemma keepsSelection_test listTest getTest s s' :
  loadTestTimetable listTest getTest s = Some s' → keepsSelection s s'.
Proof.
  destruct listTest as [[|t ts]| |]; simpl; intros [= <-]; try done.
  by destruct (getTest t).
Qed.

Lemma keepsSelection_mount listing getTimetable listTest getTest s :
  keepsSelection s
    (loadExistingTimetables listing getTimetable listTest getTest s).
Proof.
  destruct listing as [[] [|t ts]|status]; simpl; try done.
  - by destruct (getTimetable t).
  - case_decide; [|done].
    destruct (loadTestTimetable listTest getTest s) as [s'|] eqn:Htest; [|done].
    by eapply keepsSelection_test.
Qed.

End reload_facts.

(** X12: no way of loading a timetable (the retry, an upload, the load on
    mount with its test-data fallback) touches the selected courses, the
    conflicts and recommendations on display or the filters. So a course that
    was selected stays selected after a reload that no longer offers it. *)
Theorem reload_keeps_selection_and_conflicts (s : State)
    (response : Response Payload) (files : option (list string))
    (upload : Response string) (getTimetable : string → Response Payload)
    (listing : Listing) (listTest : Response (list string))
    (getTest : string → Response Payload) :
  keepsSelection s (loadTimetableData response s)
  ∧ keepsSelection s (handleFileUpload files upload getTimetable s)
  ∧ keepsSelection s
      (loadExistingTimetables listing getTimetable listTest getTest s)
  ∧ (∀ c dataToProcess,
       c ∈ selectedCourses s →
       c ∉ course <$> processPayload dataToProcess →
       c ∈ selectedCourses (loadTimetableData (Success dataToProcess) s)
       ∧ c ∉ availableCourses (loadTimetableData (Success dataToProcess) s)).
Proof.
  split; [apply keepsSelection_load|].
  split; [apply keepsSelection_upload|].
  split; [apply keepsSelection_mount|].
  intros c p Hsel Hnot. split; [done|].
  change (c ∉ uniqueCoursesOf (processPayload p)).
  intros [_ Hin]%uniqueCoursesOf_spec. done.
Qed.

(** ** An invariant of the component *)

Section invariant_facts.

Implicit Types (s : State).











End invariant_facts.



(** * Properties of the API client and the authentication store *)

Section client_facts.

Import ApiClient.

Implicit Types (b : Browser) (h cfg : Headers) (a t k : string)
  (r : option string).

Lemma getToken_setToken a r b :
  hasWindow b = true → getToken (setToken a r b) = Some a.
Proof.
  intros Hw. unfold setToken, getToken. rewrite Hw.
  destruct r as [x|]; [destruct (Js.truthy (Some x))|]; simpl; rewrite Hw.
  - rewrite lookup_insert_ne by done. by rewrite lookup_insert_eq.
  - by rewrite lookup_insert_eq.
  - by rewrite lookup_insert_eq.
Qed.

Lemma getRefreshToken_setToken a r b :
  hasWindow b = true →
  getRefreshToken (setToken a r b)
  = if Js.truthy r then r else getRefreshToken b.
Proof.
  intros Hw. unfold setToken, getRefreshToken. rewrite Hw.
  destruct r as [x|]; [destruct (Js.truthy (Some x))|]; simpl; rewrite Hw.
  - by rewrite lookup_insert_eq.
  - by rewrite lookup_insert_ne.
  - by rewrite lookup_insert_ne.
Qed.

Lemma setToken_other a r b k :
  k ≠ "access_token" → k ≠ "refresh_token" →
  localStorage (setToken a r b) !! k = localStorage b !! k.
Proof.
  intros Ha Hr. unfold setToken. destruct (hasWindow b); [|done].
  destruct r as [x|]; [destruct (Js.truthy (Some x))|]; simpl;
    by rewrite ?lookup_insert_ne.
Qed.

Lemma getToken_logout b : getToken (logout b) = None.
Proof.
  unfold getToken, logout. destruct (hasWindow b) eqn:Hw; simpl; rewrite Hw;
    [|done].
  rewrite !lookup_delete_ne by done. by rewrite lookup_delete_eq.
Qed.

Lemma getRefreshToken_logout b : getRefreshToken (logout b) = None.
Proof.
  unfold getRefreshToken, logout.
  destruct (hasWindow b) eqn:Hw; simpl; rewrite Hw; [|done].
  rewrite lookup_delete_ne by done. by rewrite lookup_delete_eq.
Qed.

Lemma onRequest_token h b t :
  getToken b = Some t → t ≠ "" →
  onRequest h b = <["Authorization" := "Bearer " +:+ t]> h.
Proof.
  intros Ht Hne. unfold onRequest. rewrite Ht. simpl.
  by destruct (String.eqb_spec t "").
Qed.

Lemma onRequest_no_token h b :
  getToken b = None ∨ getToken b = Some "" → onRequest h b = h.
Proof. unfold onRequest. by intros [-> | ->]. Qed.

End client_facts.

(** X14: in a browser, a token that is set is the token that is read; a
    missing or empty refresh token keeps the stored one; no other key of the
    storage is written; and after [logout] neither token can be read.
    Without a window nothing is stored and no token is read. *)
Theorem token_storage_round_trip (b : ApiClient.Browser)
    (a : string) (r : option string) :
  ApiClient.hasWindow b = true →
  ApiClient.getToken (ApiClient.setToken a r b) = Some a
  ∧ ApiClient.getRefreshToken (ApiClient.setToken a r b)
    = (if Js.truthy r then r else ApiClient.getRefreshToken b)
  ∧ (∀ k, k ≠ "access_token" → k ≠ "refresh_token" →
          ApiClient.localStorage (ApiClient.setToken a r b) !! k
          = ApiClient.localStorage b !! k)
  ∧ ApiClient.getToken (ApiClient.logout (ApiClient.setToken a r b)) = None
  ∧ ApiClient.getRefreshToken (ApiClient.logout (ApiClient.setToken a r b))
    = None
  ∧ (∀ b', ApiClient.hasWindow b' = false →
           ApiClient.setToken a r b' = b' ∧ ApiClient.getToken b' = None).
Proof.
  intros Hw. split; [by apply getToken_setToken|].
  split; [by apply getRefreshToken_setToken|].
  split; [intros; by apply setToken_other|].
  split; [apply getToken_logout|]. split; [apply getRefreshToken_logout|].
  intros b' Hb'. unfold ApiClient.setToken, ApiClient.getToken.
  by rewrite Hb'.
Qed.

Lemma token_storage_round_trip_witness :
  ApiClient.hasWindow ApiClient.signedIn = true
  ∧ ApiClient.getToken (ApiClient.setToken "t2" None ApiClient.signedIn)
    = Some "t2"
  ∧ ApiClient.getRefreshToken (ApiClient.setToken "t2" None ApiClient.signedIn)
    = Some "r1".
Proof.
  pose proof (token_storage_round_trip ApiClient.signedIn "t2" None eq_refl)
    as (Ht & Hr & _).
  split; [reflexivity|]. split; [exact Ht|]. exact Hr.
Defined.

(** X15: the request interceptor writes no header but Authorization; with a
    non-empty stored access token the header is "Bearer " followed by that
    token, in particular right after the token has been set; with no token
    or an empty one, and always after [logout], the headers are left as they
    are. *)
Theorem authorization_header_follows_token (h : ApiClient.Headers)
    (b : ApiClient.Browser) :
  (∀ k, k ≠ "Authorization" → ApiClient.onRequest h b !! k = h !! k)
  ∧ (∀ t, ApiClient.getToken b = Some t → t ≠ "" →
          ApiClient.onRequest h b !! "Authorization" = Some ("Bearer " +:+ t))
  ∧ (ApiClient.getToken b = None ∨ ApiClient.getToken b = Some "" →
     ApiClient.onRequest h b = h)
  ∧ ApiClient.onRequest h (ApiClient.logout b) = h
  ∧ (∀ a r, ApiClient.hasWindow b = true → a ≠ "" →
            ApiClient.onRequest h (ApiClient.setToken a r b) !! "Authorization"
            = Some ("Bearer " +:+ a)).
Proof.
  split; [|split; [|split; [|split]]].
  - intros k Hk. unfold ApiClient.onRequest.
    destruct (ApiClient.getToken b) as [t|]; [|done].
    destruct (Js.truthy (Some t)); [|done]. by rewrite lookup_insert_ne.
  - intros t Ht Hne. rewrite (onRequest_token h b t Ht Hne).
    by rewrite lookup_insert_eq.
  - apply onRequest_no_token.
  - apply onRequest_no_token. left. apply getToken_logout.
  - intros a r Hw Hne.
    rewrite (onRequest_token h _ a (getToken_setToken a r b Hw) Hne).
    by rewrite lookup_insert_eq.
Qed.

Section unauthorized_facts.

Import ApiClient.

Implicit Types (b : Browser) (cfg : Headers) (a rt : string)
  (post : string → Response string).

Lemma refreshToken_success post b rt a :
  getRefreshToken b = Some rt → rt ≠ "" →
  post ("Bearer " +:+ rt) = Success a →
  refreshToken post b = (true, setToken a None b).
Proof.
  intros Hrt Hne Hpost. unfold refreshToken. rewrite Hrt. simpl.
  destruct (String.eqb_spec rt ""); [done|]. simpl. by rewrite Hpost.
Qed.

Lemma refreshToken_window post b rt :
  getRefreshToken b = Some rt → hasWindow b = true.
Proof. unfold getRefreshToken. by destruct (hasWindow b). Qed.

Lemma hasWindow_setToken a r b : hasWindow (setToken a r b) = hasWindow b.
Proof.
  unfold setToken. destruct (hasWindow b) eqn:Hw; [|done].
  destruct r as [x|]; [destruct (Js.truthy (Some x))|]; done.
Qed.

Lemma hasWindow_logout b : hasWindow (logout b) = hasWindow b.
Proof. unfold logout. by destruct (hasWindow b) eqn:Hw. Qed.

Lemma hasWindow_refreshToken post b :
  hasWindow (refreshToken post b).2 = hasWindow b.
Proof.
  unfold refreshToken. destruct (getRefreshToken b) as [rt|]; [|done].
  destruct (Js.truthy (Some rt)); [|done].
  destruct (post _); [apply hasWindow_setToken|done..].
Qed.

Lemma refreshToken_no_window post b :
  hasWindow b = false → refreshToken post b = (false, b).
Proof. intros Hw. unfold refreshToken, getRefreshToken. by rewrite Hw. Qed.

Lemma logout_no_window b : hasWindow b = false → logout b = b.
Proof. intros Hw. unfold logout. by rewrite Hw. Qed.

End unauthorized_facts.

(** X16: an error whose status is not 401 is rejected with the storage and
    the location untouched. On a 401, when the token cannot be refreshed or
    the error has no configuration, no token can be read afterwards; in a
    browser the error is rejected, both tokens are gone and the location is
    the login page; without a window the interceptor raises instead of
    rejecting the error, and storage and location are as they were. On a 401
    with a stored non-empty refresh token that the refresh endpoint accepts,
    the request is sent again with its configuration, the request
    interceptor then gives it the new access token, the refresh token is
    kept and the location is not changed. *)
Theorem unauthorized_response_is_refreshed_or_signed_out
    (status : option nat) (config : option ApiClient.Headers)
    (post : string → Response string) (b : ApiClient.Browser) :
  (status ≠ Some 401 →
   ApiClient.onResponseError status config post b = (ApiClient.Rejected, b))
  ∧ (status = Some 401 →
     (ApiClient.refreshToken post b).1 = false ∨ config = None →
     ApiClient.getToken (ApiClient.onResponseError status config post b).2
     = None
     ∧ ApiClient.getRefreshToken
         (ApiClient.onResponseError status config post b).2 = None
     ∧ (ApiClient.hasWindow b = true →
        (ApiClient.onResponseError status config post b).1
        = ApiClient.Rejected
        ∧ ApiClient.href (ApiClient.onResponseError status config post b).2
          = "/login")
     ∧ (ApiClient.hasWindow b = false →
        ApiClient.onResponseError status config post b
        = (ApiClient.Raised, b)))
  ∧ (∀ rt a cfg,
       status = Some 401 → config = Some cfg →
       ApiClient.getRefreshToken b = Some rt → rt ≠ "" →
       post ("Bearer " +:+ rt) = Success a → a ≠ "" →
       (ApiClient.onResponseError status config post b).1
       = ApiClient.Retried cfg
       ∧ ApiClient.onRequest cfg
           (ApiClient.onResponseError status config post b).2
         !! "Authorization" = Some ("Bearer " +:+ a)
       ∧ ApiClient.getRefreshToken
           (ApiClient.onResponseError status config post b).2 = Some rt
       ∧ ApiClient.href (ApiClient.onResponseError status config post b).2
         = ApiClient.href b).
Proof.
  split; [|split].
  - intros Hs. unfold ApiClient.onResponseError. by rewrite decide_False.
  - intros -> Hfail. unfold ApiClient.onResponseError.
    rewrite decide_True by done.
    assert (∀ b',
              ApiClient.hasWindow b' = ApiClient.hasWindow b →
              (ApiClient.hasWindow b = false → b' = b) →
              let res :=
                if ApiClient.hasWindow (ApiClient.logout b')
                then (ApiClient.Rejected,
                      ApiClient.setHref "/login" (ApiClient.logout b'))
                else (ApiClient.Raised, ApiClient.logout b') in
              ApiClient.getToken res.2 = None
              ∧ ApiClient.getRefreshToken res.2 = None
              ∧ (ApiClient.hasWindow b = true →
                 res.1 = ApiClient.Rejected ∧ ApiClient.href res.2 = "/login")
              ∧ (ApiClient.hasWindow b = false → res = (ApiClient.Raised, b)))
      as Hout.
    { intros b' Hw Hsame. rewrite hasWindow_logout, Hw.
      pose proof (getToken_logout b') as Ht.
      pose proof (getRefreshToken_logout b') as Hr.
      destruct (ApiClient.hasWindow b) eqn:Hb; simpl.
      - repeat split; done.
      - rewrite (Hsame eq_refl), (logout_no_window b Hb) in *.
        repeat split; done. }
    pose proof (hasWindow_refreshToken post b) as Hw.
    assert (ApiClient.hasWindow b = false → (ApiClient.refreshToken post b).2 = b)
      as Hsame by (intros Hb; by rewrite refreshToken_no_window).
    destruct (ApiClient.refreshToken post b) as [[] b1]; simpl in *.
    + destruct Hfail as [?| ->]; [done|]. by apply Hout.
    + destruct config; by apply Hout.
  - intros rt a cfg -> -> Hrt Hne Hpost Ha.
    unfold ApiClient.onResponseError. rewrite decide_True by done.
    rewrite (refreshToken_success post b rt a Hrt Hne Hpost). simpl.
    pose proof (refreshToken_window post b rt Hrt) as Hw.
    split; [done|]. split; [|split].
    + rewrite (onRequest_token cfg _ a (getToken_setToken a None b Hw) Ha).
      by rewrite lookup_insert_eq.
    + by rewrite getRefreshToken_setToken.
    + unfold ApiClient.setToken. by rewrite Hw.
Qed.

Lemma unauthorized_response_is_refreshed_or_signed_out_witness :
  ApiClient.getRefreshToken ApiClient.signedIn = Some "r1"
  ∧ (ApiClient.onResponseError (Some 401) (Some ∅) (λ _, Success "t2")
       ApiClient.signedIn).1 = ApiClient.Retried ∅
  ∧ ApiClient.onRequest ∅
      (ApiClient.onResponseError (Some 401) (Some ∅) (λ _, Success "t2")
         ApiClient.signedIn).2 !! "Authorization" = Some "Bearer t2"
  ∧ ApiClient.href
      (ApiClient.onResponseError (Some 401) (Some ∅) (λ _, Failure None)
         ApiClient.signedIn).2 = "/login"
  ∧ ApiClient.onResponseError (Some 401) (Some ∅) (λ _, Success "t2")
      (ApiClient.mkBrowser false ∅ "")
    = (ApiClient.Raised, ApiClient.mkBrowser false ∅ "").
Proof.
  assert ("r1" ≠ "") as H1 by discriminate.
  assert ("t2" ≠ "") as H2 by discriminate.
  pose proof (proj2 (proj2
    (unauthorized_response_is_refreshed_or_signed_out (Some 401) (Some ∅)
       (λ _, Success "t2") ApiClient.signedIn))
    "r1" "t2" ∅ eq_refl eq_refl eq_refl H1 eq_refl H2) as (Hr & Hh & _).
  pose proof (proj1 (proj2
    (unauthorized_response_is_refreshed_or_signed_out (Some 401) (Some ∅)
       (λ _, Failure None) ApiClient.signedIn))
    eq_refl (or_introl eq_refl)) as (_ & _ & Hin & _).
  pose proof (proj1 (proj2
    (unauthorized_response_is_refreshed_or_signed_out (Some 401) (Some ∅)
       (λ _, Success "t2") (ApiClient.mkBrowser false ∅ "")))
    eq_refl (or_introl eq_refl)) as (_ & _ & _ & Hout).
  split; [reflexivity|]. split; [exact Hr|]. split; [exact Hh|].
  split; [exact (proj2 (Hin eq_refl))|exact (Hout eq_refl)].
Defined.

(** X17: the store's logout always forgets the user. When the logout request
    returns, the tokens are removed as well; when it throws with a status
    other than 401, the response interceptor leaves the storage alone and
    the tokens stay, so that later requests still carry the old access
    token although the store holds no user. *)
Theorem logout_forgets_user_but_may_keep_tokens
    (b : ApiClient.Browser) (st : AuthStore.AuthState)
    (response : ApiClient.AuthResponse) :
  AuthStore.user (AuthStore.logout response b st).2 = None
  ∧ AuthStore.isAuthenticated (AuthStore.logout response b st).2 = false
  ∧ (∀ success data err,
       response = ApiClient.AuthBody success data err →
       ApiClient.getToken (AuthStore.logout response b st).1 = None
       ∧ ApiClient.getRefreshToken (AuthStore.logout response b st).1 = None)
  ∧ (∀ responseError message status config post headers t,
       response = ApiClient.AuthRaised responseError message →
       status ≠ Some 401 →
       ApiClient.getToken b = Some t → t ≠ "" →
       (ApiClient.onResponseError status config post b).2 = b
       ∧ ApiClient.getToken (AuthStore.logout response b st).1 = Some t
       ∧ ApiClient.onRequest headers (AuthStore.logout response b st).1
         !! "Authorization" = Some ("Bearer " +:+ t)).
Proof.
  split; [done|]. split; [done|]. split.
  - intros success data err ->. unfold AuthStore.logout. simpl.
    pose proof (getToken_logout b) as Ht.
    pose proof (getRefreshToken_logout b) as Hr.
    by destruct (ApiClient.hasWindow (ApiClient.logout b)).
  - intros re msg status config post headers t -> Hs Ht Hne.
    split.
    { unfold ApiClient.onResponseError. by rewrite decide_False. }
    assert (ApiClient.getToken
              (AuthStore.logout (ApiClient.AuthRaised re msg) b st).1 = Some t)
      as Hkept.
    { unfold AuthStore.logout. simpl. by destruct (ApiClient.hasWindow b). }
    split; [done|].
    rewrite (onRequest_token headers _ t Hkept Hne).
    by rewrite lookup_insert_eq.
Qed.

Lemma logout_forgets_user_but_may_keep_tokens_witness :
  ApiClient.getToken ApiClient.signedIn = Some "t1"
  ∧ AuthStore.user
      (AuthStore.logout (ApiClient.AuthRaised None (Some "Network Error"))
         ApiClient.signedIn AuthStore.initialAuth).2 = None
  ∧ ApiClient.getToken
      (AuthStore.logout (ApiClient.AuthRaised None (Some "Network Error"))
         ApiClient.signedIn AuthStore.initialAuth).1 = Some "t1".
Proof.
  assert ("t1" ≠ "") as H1 by discriminate.
  assert (@None nat ≠ Some 401) as H2 by discriminate.
  pose proof (logout_forgets_user_but_may_keep_tokens ApiClient.signedIn
                AuthStore.initialAuth
                (ApiClient.AuthRaised None (Some "Network Error")))
    as (Hu & _ & _ & Hkeep).
  destruct (Hkeep None (Some "Network Error") None None (λ _, Failure None) ∅
              "t1" eq_refl H2 eq_refl H1) as (_ & Ht & _).
  split; [reflexivity|]. split; [exact Hu|exact Ht].
Defined.

(** ** The authentication store *)

Section auth_facts.

Import AuthStore.

Implicit Types (st : AuthState) (response : ApiClient.AuthResponse).

Lemma rethrown_nonempty re msg fallback :
  fallback ≠ "" → rethrown re msg fallback ≠ "".
Proof. intros Hf. by apply orStr_nonempty. Qed.

Lemma signIn_inr fallback response st st' :
  signIn fallback response st = inr st' →
  ∃ data err, response = ApiClient.AuthBody true data err
              ∧ st' = mkAuthState (Some (userOf data)) true (isLoading st).
Proof.
  destruct response as [[] data err|re msg]; simpl; intros [= <-].
  by exists data, err.
Qed.

Lemma signIn_inl fallback response st msg :
  fallback ≠ "" → signIn fallback response st = inl msg → msg ≠ "".
Proof.
  intros Hf. destruct response as [[] data err|re m]; simpl; intros [= <-].
  - by apply rethrown_nonempty.
  - by apply rethrown_nonempty.
Qed.

Lemma coherent_step st st' : coherent st → authStep st st' → coherent st'.
Proof.
  intros Hst Hstep. unfold coherent. destruct Hstep as
    [st st' response H|st st' response H|st response b|st response].
  - apply signIn_inr in H as (data & err & -> & ->). simpl. by split.
  - apply signIn_inr in H as (data & err & -> & ->). simpl. by split.
  - simpl. split; [done|]. by intros [? ?].
  - destruct response as [[] data err|re m]; simpl; split; try done;
      by intros [? ?].
Qed.

End auth_facts.

(** X18: in every state the store reaches from its initial state by login,
    registration, logout and the token check, whatever the API answers,
    [isAuthenticated] is true exactly when a user is held. *)
Theorem auth_flag_tracks_user (st : AuthStore.AuthState) :
  rtc AuthStore.authStep AuthStore.initialAuth st → AuthStore.coherent st.
Proof.
  intros Hreach.
  apply (rtc_ind_r (R := AuthStore.authStep) (λ st', AuthStore.coherent st')
           AuthStore.initialAuth); [| |done].
  - split; [done|]. by intros [? ?].
  - intros st1 st2 _ Hstep Hst1. by eapply coherent_step.
Qed.

Lemma auth_flag_tracks_user_witness :
  rtc AuthStore.authStep AuthStore.initialAuth
    (AuthStore.checkAuth
       (ApiClient.AuthBody true AuthStore.someCredentials None)
       AuthStore.initialAuth)
  ∧ AuthStore.coherent
      (AuthStore.checkAuth
         (ApiClient.AuthBody true AuthStore.someCredentials None)
         AuthStore.initialAuth).
Proof.
  assert (rtc AuthStore.authStep AuthStore.initialAuth
            (AuthStore.checkAuth
               (ApiClient.AuthBody true AuthStore.someCredentials None)
               AuthStore.initialAuth)) as Hreach
    by apply rtc_once, AuthStore.auth_check.
  split; [exact Hreach|]. exact (auth_flag_tracks_user _ Hreach).
Defined.

(** X19: a login either authenticates with the user of the response, keeping
    [isLoading], or throws an error whose message is never empty: the
    [error] of the response body of an exception if there is one, else the
    exception's message, else "Login failed"; an unsuccessful body throws
    its own [error] or "Login failed". Exactly the successful logins store
    tokens: a login that throws leaves the storage as it was. *)
Theorem login_authenticates_or_throws
    (response : ApiClient.AuthResponse) (st : AuthStore.AuthState)
    (b : ApiClient.Browser) :
  (∀ st', AuthStore.login response st = inr st' →
     ∃ data err,
       response = ApiClient.AuthBody true data err
       ∧ AuthStore.user st'
         = Some (AuthStore.mkUser (ApiClient.cred_username data)
                                  (ApiClient.cred_name data))
       ∧ AuthStore.isAuthenticated st' = true
       ∧ AuthStore.isLoading st' = AuthStore.isLoading st
       ∧ (ApiClient.hasWindow b = true →
          ApiClient.getToken (ApiClient.login response b)
          = Some (ApiClient.access_token data)))
  ∧ (∀ msg, AuthStore.login response st = inl msg →
       msg ≠ "" ∧ ApiClient.login response b = b)
  ∧ (∀ data err, response = ApiClient.AuthBody false data err →
       AuthStore.login response st = inl (Js.orStr err "Login failed"))
  ∧ (∀ e message, response = ApiClient.AuthRaised (Some e) message →
       e ≠ "" → AuthStore.login response st = inl e)
  ∧ (∀ message, response = ApiClient.AuthRaised None message →
       AuthStore.login response st = inl (Js.orStr message "Login failed")).
Proof.
  split; [|split; [|split; [|split]]].
  - intros st' (data & err & -> & ->)%signIn_inr.
    exists data, err. repeat (split; [done|]).
    intros Hw. unfold ApiClient.login.
    pose proof (getToken_setToken (ApiClient.access_token data)
                  (ApiClient.refresh_token data) b Hw) as Ht.
    destruct (ApiClient.hasWindow (ApiClient.setToken _ _ b)) eqn:Hw'; [|done].
    unfold ApiClient.getToken in *. simpl. rewrite Hw' in *.
    by rewrite lookup_insert_ne.
  - intros msg Hmsg. split.
    + by apply (signIn_inl "Login failed" response st msg).
    + destruct response as [[] data err|re m]; [discriminate Hmsg|done..].
  - intros data err ->. unfold AuthStore.login. simpl.
    unfold AuthStore.rethrown. simpl.
    assert (Js.orStr err "Login failed" ≠ "") as Hne
      by by apply orStr_nonempty.
    unfold Js.or. simpl.
    by destruct (String.eqb_spec (Js.orStr err "Login failed") "").
  - intros e message -> Hne. unfold AuthStore.login. simpl.
    unfold AuthStore.rethrown, Js.or. simpl.
    destruct (String.eqb_spec e "") as [|_]; [done|]. simpl.
    by destruct (String.eqb_spec e "").
  - intros message ->. done.
Qed.

(** * Further properties of loading and clearing *)

(** X20: on mount, a successful listing makes its first timetable current
    and shows the view tab; if that timetable loads, its entries are in
    memory with their courses selectable. A listing without timetables, or
    without [success], drops the current id, the entries, the selectable
    courses and the statistics and shows the upload tab. An exception with
    status 401 falls back to the test timetable: its entries are loaded
    under the "Using test data" message, or the "Please log in" message is
    set and nothing else changes when the test listing throws. Any other
    exception drops the data and leaves the tab as it was. *)
Theorem mount_outcomes (s : State) (getTimetable : string → Response Payload)
    (listTest : Response (list string)) (getTest : string → Response Payload) :
  (∀ mostRecent older,
     let s' := loadExistingTimetables (Listed true (mostRecent :: older))
                 getTimetable listTest getTest s in
     currentTimetableId s' = Some mostRecent ∧ activeTab s' = "view"
     ∧ ∀ dataToProcess,
         getTimetable mostRecent = Success dataToProcess →
         timetableData s' = processPayload dataToProcess
         ∧ coursesSelectable s')
  ∧ (∀ success timetables,
       success = false ∨ timetables = [] →
       loadExistingTimetables (Listed success timetables)
         getTimetable listTest getTest s
       = setActiveTab "upload" (dropStaleData s))
  ∧ (∀ testTimetable others dataToProcess,
       listTest = Success (testTimetable :: others) →
       getTest testTimetable = Success dataToProcess →
       let s' := loadExistingTimetables (ListingThrown (Some 401))
                   getTimetable listTest getTest s in
       timetableData s' = processPayload dataToProcess
       ∧ currentTimetableId s' = Some testTimetable
       ∧ error s'
         = Some "Using test data - please log in for your actual timetables")
  ∧ (∀ message,
       listTest = Thrown message →
       loadExistingTimetables (ListingThrown (Some 401))
         getTimetable listTest getTest s
       = setError (Some "Please log in to access your timetables") s)
  ∧ (∀ status,
       status ≠ Some 401 →
       loadExistingTimetables (ListingThrown status)
         getTimetable listTest getTest s
       = dropStaleData s).
Proof.
  split; [|split; [|split; [|split]]].
  - intros mostRecent older. simpl. split; [|split].
    + by destruct (getTimetable mostRecent).
    + by destruct (getTimetable mostRecent).
    + intros p ->. split; [done|]. simpl. apply storeEntries_courses.
  - intros success timetables [-> | ->]; [done|]. by destruct success.
  - intros t ts p -> Hp. unfold loadExistingTimetables.
    case_decide; [|done]. simpl. by rewrite Hp.
  - intros message ->. unfold loadExistingTimetables. by case_decide.
  - intros status Hs. unfold loadExistingTimetables. by case_decide.
Qed.

(** X21: clearing all data empties the timetable, the view, the selection,
    the conflict results, the statistics, the error and the current id,
    whatever the backend answered, but keeps the filters: the next timetable
    that is loaded is shown, after the filter effect, through the filters
    set before the clearing. *)
Theorem clearAllData_keeps_filters (s : State) (backend : option bool)
    (dataToProcess : Payload) :
  clearAllData backend s = clearAllData None s
  ∧ timetableData (clearAllData backend s) = []
  ∧ filteredData (clearAllData backend s) = []
  ∧ selectedCourses (clearAllData backend s) = []
  ∧ conflicts (clearAllData backend s) = []
  ∧ recommendations (clearAllData backend s) = []
  ∧ stats (clearAllData backend s) = None
  ∧ error (clearAllData backend s) = None
  ∧ currentTimetableId (clearAllData backend s) = None
  ∧ filters (clearAllData backend s) = filters s
  ∧ filteredData
      (applyFilters
         (loadTimetableData (Success dataToProcess) (clearAllData backend s)))
    = filter (passes (filters s)) (processPayload dataToProcess).
Proof.
  repeat (split; [done|]). by rewrite applyFilters_filter.
Qed.

(** * Instances of the conditional properties *)

Lemma course_selection_round_trip_witness :
  ("CS2001" ∉ selectedCourses sampleState)
  ∧ selectedCourses
      (handleCourseSelection "CS2001" false
         (handleCourseSelection "CS2001" true sampleState))
    = selectedCourses sampleState.
Proof.
  assert ("CS2001" ∉ selectedCourses sampleState) as Hc
    by (intros Hin; inversion Hin).
  split; [exact Hc|].
  exact (proj1 (proj2 (proj2
    (course_selection_round_trip sampleState "CS2001"))) Hc).
Defined.

Lemma class_counts_add_up_witness :
  Forall typeMissing [blankRow; aliasedRow]
  ∧ theoryClasses (statsOf (processPayload (PArray [blankRow; aliasedRow])))
    = 2
  ∧ labClasses (statsOf (processPayload (PArray [blankRow; aliasedRow]))) = 0.
Proof.
  assert (Forall typeMissing [blankRow; aliasedRow]) as Hrows.
  { repeat constructor. }
  split; [exact Hrows|].
  exact (proj2 (class_counts_add_up [] [blankRow; aliasedRow]) Hrows).
Defined.

Lemma loaded_ids_are_distinct_witness :
  NoDup [("a.xlsx", FArray [blankRow; aliasedRow]); ("a", FArray [namedRow])].*1
  ∧ NoDup (id <$> processPayload
             (PFiles [("a.xlsx", FArray [blankRow; aliasedRow]);
                      ("a", FArray [namedRow])])).
Proof.
  assert (NoDup [("a.xlsx", FArray [blankRow; aliasedRow]);
                 ("a", FArray [namedRow])].*1) as Hnames.
  { apply NoDup_cons. split; [|apply NoDup_singleton].
    intros Hin%list_elem_of_singleton. discriminate Hin. }
  split; [exact Hnames|].
  exact (proj2 (loaded_ids_are_distinct [] _) Hnames).
Defined.

Lemma reload_keeps_selection_and_conflicts_witness :
  "MATH101" ∈ selectedCourses (handleCourseSelection "MATH101" true initialState)
  ∧ ("MATH101" ∉ course <$> processPayload (PArray [aliasedRow]))
  ∧ "MATH101"
    ∈ selectedCourses
        (loadTimetableData (Success (PArray [aliasedRow]))
           (handleCourseSelection "MATH101" true initialState))
  ∧ ("MATH101"
     ∉ availableCourses
         (loadTimetableData (Success (PArray [aliasedRow]))
            (handleCourseSelection "MATH101" true initialState))).
Proof.
  assert ("MATH101"
          ∈ selectedCourses (handleCourseSelection "MATH101" true initialState))
    as Hsel by apply list_elem_of_here.
  assert ("MATH101" ∉ course <$> processPayload (PArray [aliasedRow])) as Hnot.
  { intros Hin%list_elem_of_singleton. discriminate Hin. }
  split; [exact Hsel|]. split; [exact Hnot|].
  exact (proj2 (proj2 (proj2
    (reload_keeps_selection_and_conflicts
       (handleCourseSelection "MATH101" true initialState)
       (Failure None) None (Failure None) (λ _, Failure None)
       (Listed false []) (Failure None) (λ _, Failure None))))
    "MATH101" (PArray [aliasedRow]) Hsel Hnot).
Defined.

Lemma login_authenticates_or_throws_witness :
  AuthStore.login (ApiClient.AuthRaised (Some "Invalid credentials")
                     (Some "Request failed with status code 500"))
    AuthStore.initialAuth
  = inl "Invalid credentials"
  ∧ ApiClient.login (ApiClient.AuthRaised (Some "Invalid credentials")
                       (Some "Request failed with status code 500"))
      ApiClient.signedIn
    = ApiClient.signedIn.
Proof.
  assert ("Invalid credentials" ≠ "") as Hne by discriminate.
  pose proof (login_authenticates_or_throws
                (ApiClient.AuthRaised (Some "Invalid credentials")
                   (Some "Request failed with status code 500"))
                AuthStore.initialAuth ApiClient.signedIn)
    as (_ & Hthrow & _ & Hmsg & _).
  pose proof (Hmsg "Invalid credentials"
                (Some "Request failed with status code 500") eq_refl Hne)
    as Hlogin.
  split; [exact Hlogin|]. exact (proj2 (Hthrow _ Hlogin)).
Defined.
